(** * node-pg-jobs: the job lifecycle controller of [lib/jobs.js]

    A shallow embedding of the controller in continuation-passing style.
    The JavaScript source is written with node-style callbacks; every
    function taking a callback becomes a Rocq function taking a
    continuation, and the process state the callbacks share (the
    module-level flag, the database behind the connection, the pool, the
    clock and the sequence of observable actions) is threaded explicitly as
    a [World].

    The [db] and [tx] arguments of the source all denote the one connection
    the world holds, so they are not passed around; [debug(...)] calls have
    no effect on the controller and are left out.  [Jobs.create] takes no
    part in the processing paths; it is embedded after them. *)

From Stdlib Require Import ZArith Lia List String.
From stdpp Require Import base option list gmap strings.

Local Open Scope Z_scope.

(** ** Values exchanged with the collaborators *)

Definition JobId := nat.
Definition Data := string.

(** The four kinds of failure the controller sees.  The only error the
    controller creates itself is [new Error('Could not locate job')], which
    is [JobNotFoundError]; every other error value comes from [pg], from the
    job store or from the user's processing function. *)
Inductive Error : Type :=
| ConnectionError
| StoreError (code : nat)
| JobNotFoundError
| UserProcessingError (code : nat).

(** A delay argument as JavaScript passes it: omitted, [null] or a number
    of milliseconds. *)
Inductive JsDelay : Type :=
| Undefined
| Null
| Ms (n : Z).

(** The object handed to the processing path: [jobSnap.job_id] and
    [jobSnap.data]. *)
Record JobSnap : Type := mkJobSnap { job_id : JobId; data : Data }.

(** [options] of the exported factory. *)
Record Options : Type := mkOptions { db : string; pollInterval : option Z }.

(** The object returned by one call of the exported factory.  Everything
    else a [Jobs] object refers to is either the world ([shouldStillProcess]
    is declared outside the factory) or one of the functions below. *)
Record Jobs : Type := mkJobs { options : Options }.

Inductive EventName : Type :=
| jobUpdated
| maybeServiceJob
| drain
| processCommitted
| processNowCommitted
| stopProcess.

(** Requests made to [jobsModel]. *)
Inductive ModelCall : Type :=
| CallWrite (id : option JobId) (processIn : JsDelay) (d : Data)
| CallSetProcessedNow (id : JobId)
| CallNextToProcess
| CallObtainLock (id : JobId)
| CallUnlock (id : JobId)
| CallGetDataForJob (id : JobId).

(** What an observer of the process can see, in the order it happens. *)
Inductive Event : Type :=
| Emit (name : EventName)             (* eventEmitter.emit(name) *)
| PgConnect (uri : string)           (* pg.connect(uri, ...) *)
| ReleaseClient                      (* releaseClient() *)
| Model (c : ModelCall)              (* a request to jobsModel *)
| TxBegin                            (* tx.begin() *)
| TxCommit                           (* tx.commit(...), carried out *)
| TxRollback                         (* tx.rollback(...), carried out *)
| UserCalled (id : JobId) (d : Data) (* the user's function is called *)
| SetTimeout (ms : Z)                (* setTimeout(..., ms) *)
| DoneCalled (err : option Error).   (* an observer's done(err) *)

(** What other tasks of the same process may do while this controller is
    suspended on a callback: call [stopProcessing] on some instance, enter
    [process] on some instance (its first statement), or let time pass. *)
Inductive ExtCall : Type :=
| CallStop (J : Jobs)
| CallProcess (J : Jobs)
| Elapse (ms : N).

#[global] Instance Error_eq_dec : EqDecision Error.
Proof. solve_decision. Defined.
#[global] Instance JsDelay_eq_dec : EqDecision JsDelay.
Proof. solve_decision. Defined.
#[global] Instance EventName_eq_dec : EqDecision EventName.
Proof. solve_decision. Defined.
#[global] Instance ModelCall_eq_dec : EqDecision ModelCall.
Proof. solve_decision. Defined.
#[global] Instance Event_eq_dec : EqDecision Event.
Proof. solve_decision. Defined.

(** ** The collaborators as an interface

    [pg], [pg-transaction] and [../models/jobs] are not part of
    [lib/jobs.js].  The controller is written against this interface; each
    operation acts on the database state [Db] and reports what its callback
    would receive.  Operations that read the time of day take it as their
    first argument. *)
Class Store (Db : Type) : Type := {
  (* pg.connect(uri, function (err, db, releaseClient)) *)
  pg_connect : string -> Db -> Db * option Error;
  (* new Transaction(db): begin(), commit(cb), rollback(cb) *)
  tx_begin : Db -> Db * option Error;
  tx_commit : Db -> Db * option Error;
  tx_rollback : Db -> Db * option Error;
  (* jobsModel *)
  write : Z -> option JobId -> JsDelay -> Data -> Db ->
          Db * (option Error * option JobId);
  setProcessedNow : Z -> JobId -> Db -> Db * option Error;
  nextToProcess : Z -> Db -> Db * (option Error * option JobSnap);
  obtainLock : JobId -> Db -> Db * option Error;
  unlock : JobId -> Db -> Db * option Error;
  getDataForJob : JobId -> Db -> Db * (option Error * option JobSnap)
}.

(** JavaScript truthiness of the values the controller tests. *)
Definition truthy_flag (b : option bool) : bool :=
  match b with Some true => true | _ => false end.

Definition truthy_number (n : option Z) : bool :=
  match n with Some z => negb (z =? 0) | None => false end.

(** [options.pollInterval || 1000] *)
Definition pollInterval_or_default (o : Options) : Z :=
  if truthy_number (pollInterval o) then default 1000 (pollInterval o)
  else 1000.

(** The largest delay a timer of the runtime honours, in milliseconds. *)
Definition TIMEOUT_MAX : Z := 2147483647.

(** The delay a timer is armed with: the runtime sets a delay that is less
    than 1 or larger than [TIMEOUT_MAX] to 1. *)
Definition timer_delay (ms : Z) : Z :=
  if (ms <? 1) || (TIMEOUT_MAX <? ms) then 1 else ms.

Section Controller.
Context {Db : Type} `{!Store Db}.

(** ** The world *)
Record World : Type := mkWorld {
  shouldStillProcess : option bool;   (* the module-level variable *)
  database : Db;
  checkedOut : nat;                   (* pool clients not yet returned *)
  clock : Z;                          (* milliseconds *)
  trace : list Event;
  agenda : list (list ExtCall);       (* what others do at each suspension *)
  parked : bool                       (* a loop was cut off by the budget *)
}.

Definition set_shouldStillProcess (b : option bool) (w : World) : World :=
  mkWorld b (database w) (checkedOut w) (clock w) (trace w) (agenda w)
          (parked w).
Definition set_database (d : Db) (w : World) : World :=
  mkWorld (shouldStillProcess w) d (checkedOut w) (clock w) (trace w)
          (agenda w) (parked w).
Definition set_checkedOut (n : nat) (w : World) : World :=
  mkWorld (shouldStillProcess w) (database w) n (clock w) (trace w)
          (agenda w) (parked w).
Definition set_clock (t : Z) (w : World) : World :=
  mkWorld (shouldStillProcess w) (database w) (checkedOut w) t (trace w)
          (agenda w) (parked w).
Definition set_agenda (a : list (list ExtCall)) (w : World) : World :=
  mkWorld (shouldStillProcess w) (database w) (checkedOut w) (clock w)
          (trace w) a (parked w).
Definition set_parked (b : bool) (w : World) : World :=
  mkWorld (shouldStillProcess w) (database w) (checkedOut w) (clock w)
          (trace w) (agenda w) b.
Definition log (e : Event) (w : World) : World :=
  mkWorld (shouldStillProcess w) (database w) (checkedOut w) (clock w)
          (trace w ++ [e]) (agenda w) (parked w).

(** [Jobs.eventEmitter.emit(name)].  Listeners belong to other tasks; what
    they do to the flag takes effect at a suspension next to the emission
    (the controller reads the flag only in the test of the loop). *)
Definition emit (name : EventName) : World -> World := log (Emit name).

(** A callback [function (err)]. *)
Definition Callback : Type := option Error -> World -> World.

(** The user's processing function.  It is given [(job_id, data, cb)] and
    must call [cb(err, newJobData, processIn)] once; it is represented by
    the arguments of that call. *)
Definition ProcessFunction : Type :=
  JobId -> Data -> option Error * Data * JsDelay.

(** ** [Jobs.stopProcessing], [Jobs.continueProcessing] *)
Definition stopProcessing (J : Jobs) (w : World) : World :=
  set_shouldStillProcess (Some false) w.

Definition continueProcessing (J : Jobs) (w : World) : option bool :=
  shouldStillProcess w.

(** First statement of [Jobs.process]: [shouldStillProcess = true]. *)
Definition process_enter (J : Jobs) (w : World) : World :=
  set_shouldStillProcess (Some true) w.

(** ** Suspension points *)
Definition run_ext (w : World) (c : ExtCall) : World :=
  match c with
  | CallStop J => stopProcessing J w
  | CallProcess J => process_enter J w
  | Elapse ms => set_clock (clock w + Z.of_N ms) w
  end.

(** Control returns to the event loop: the other tasks scheduled for this
    suspension run before the pending callback does. *)
Definition yield (w : World) : World :=
  match agenda w with
  | [] => w
  | cs :: rest => foldl run_ext (set_agenda rest w) cs
  end.

(** [setImmediate(f)] *)
Definition setImmediate (f : World -> World) (w : World) : World :=
  f (yield w).

(** [setTimeout(f, ms)]: [f] runs, without arguments, no sooner than the
    delay the timer was armed with after the call. *)
Definition setTimeout (f : World -> World) (ms : Z) (w : World) : World :=
  f (yield (set_clock (clock w + timer_delay ms) (log (SetTimeout ms) w))).

(** ** Calls into the collaborators *)
Definition connect (uri : string) (k : Callback) (w : World) : World :=
  let '(d, err) := pg_connect uri (database w) in
  let w1 := log (PgConnect uri) (set_database d w) in
  let w2 := match err with
          | Some _ => w1
          | None => set_checkedOut (S (checkedOut w1)) w1
          end in
  k err (yield w2).

Definition releaseClient (w : World) : World :=
  log ReleaseClient (set_checkedOut (pred (checkedOut w)) w).

(** [tx.begin()], without callback: the controller goes on whatever the
    outcome.  (With [pg-transaction] a BEGIN that fails is raised as an
    ['error'] event of the transaction, which nothing here listens to; the
    statements that follow a cycle beyond its [begin] on an arbitrary store
    therefore assume that BEGIN succeeds.) *)
Definition begin (w : World) : World :=
  log TxBegin (set_database (tx_begin (database w)).1 w).

(** [tx.commit(cb)] and [tx.rollback(cb)]; the callback the controller
    passes takes no argument. *)
Definition commit (cb : World -> World) (w : World) : World :=
  cb (yield (log TxCommit (set_database (tx_commit (database w)).1 w))).

Definition rollback (cb : World -> World) (w : World) : World :=
  cb (yield (log TxRollback (set_database (tx_rollback (database w)).1 w))).

Definition jobsModel_write (id : option JobId) (processIn : JsDelay)
    (d : Data) (cb : option Error -> option JobId -> World -> World)
    (w : World) : World :=
  let '(s, (err, r)) := write (clock w) id processIn d (database w) in
  cb err r (yield (log (Model (CallWrite id processIn d)) (set_database s w))).

(** [jobsModel.setProcessedNow(db, id)], without callback. *)
Definition jobsModel_setProcessedNow (id : JobId) (w : World) : World :=
  log (Model (CallSetProcessedNow id))
      (set_database (setProcessedNow (clock w) id (database w)).1 w).

Definition jobsModel_nextToProcess
    (cb : option Error -> option JobSnap -> World -> World)
    (w : World) : World :=
  let '(s, (err, r)) := nextToProcess (clock w) (database w) in
  cb err r (yield (log (Model CallNextToProcess) (set_database s w))).

Definition jobsModel_obtainLock (id : JobId) (cb : Callback)
    (w : World) : World :=
  let '(s, err) := obtainLock id (database w) in
  cb err (yield (log (Model (CallObtainLock id)) (set_database s w))).

(** [jobsModel.unlock(db, id)], without callback. *)
Definition jobsModel_unlock (id : JobId) (w : World) : World :=
  log (Model (CallUnlock id)) (set_database (unlock id (database w)).1 w).

Definition jobsModel_getDataForJob (id : JobId)
    (cb : option Error -> option JobSnap -> World -> World)
    (w : World) : World :=
  let '(s, (err, r)) := getDataForJob id (database w) in
  cb err r (yield (log (Model (CallGetDataForJob id)) (set_database s w))).

(** ** [async.whilst(test, iterator, callback)]

    The library runs [iterator] while [test()] is truthy; an error passed
    to the iterator's callback ends the loop and is handed to [callback],
    and so does a falsy test, without error.  [budget] bounds the number
    of iterations that are observed; when it runs out the loop is left
    [parked], still alive. *)
Fixpoint whilst (budget : nat) (test : World -> option bool)
    (iterator : Callback -> World -> World) (callback : Callback)
    (w : World) : World :=
  if truthy_flag (test w) then
    match budget with
    | O => set_parked true w
    | S budget' =>
        iterator (fun err =>
                    match err with
                    | Some e => callback (Some e)
                    | None => whilst budget' test iterator callback
                    end) w
    end
  else callback None w.

(** ** The controller *)

Definition updateJob (jobSnapshot : JobSnap) (newJobData : Data)
    (processIn : JsDelay) (cb : Callback) : World -> World :=
  let processIn :=
    match processIn with Undefined => Null | _ => processIn end in
  let complete (err : option Error) (_ : option JobId) :=
    match err with
    | Some e => cb (Some e)
    | None => fun w => cb None (emit jobUpdated w)
    end in
  jobsModel_write (Some (job_id jobSnapshot)) processIn newJobData complete.

Definition serviceJob (jobContainer : JobSnap)
    (userJobIterator : ProcessFunction) (callback : Callback)
    (w : World) : World :=
  let processingComplete (err : option Error) (newJobData : Data)
      (processIn : JsDelay) : World -> World :=
    match err with
    | Some e => callback (Some e)
    | None => fun w =>
        updateJob jobContainer newJobData processIn callback
                  (jobsModel_setProcessedNow (job_id jobContainer) w)
    end in
  let '(err, newJobData, processIn) :=
    userJobIterator (job_id jobContainer) (data jobContainer) in
  processingComplete err newJobData processIn
    (yield (log (UserCalled (job_id jobContainer) (data jobContainer)) w)).

Definition processJob (J : Jobs) (now : bool)
    (processFunction : ProcessFunction) (callback : Callback)
    (jobSnap : JobSnap) (w : World) : World :=
  serviceJob jobSnap processFunction
    (fun err =>
       let txDone (w : World) : World :=
         callback err
           (emit (if now then processNowCommitted else processCommitted) w)
       in
       match err with
       | Some _ => rollback txDone
       | None => commit txDone
       end)
    (begin w).

Definition getJobProcessor (J : Jobs) (now : bool)
    (processFunction : ProcessFunction) (callback : Callback)
    : option Error -> option JobSnap -> World -> World :=
  fun err jobSnap w =>
    match err with
    | Some e => callback (Some e) w
    | None =>
        match jobSnap with
        | None =>
            if now then callback (Some JobNotFoundError) w
            else setTimeout (callback None)
                            (pollInterval_or_default (options J))
                            (emit drain w)
        | Some snap => processJob J now processFunction callback snap w
        end
    end.

(** The [iterator] and [finish] closures of [Jobs.process]. *)
Definition process_iterator (J : Jobs) (processFunction : ProcessFunction)
    (callback : Callback) : World -> World :=
  setImmediate (fun w =>
    jobsModel_nextToProcess
      (getJobProcessor J false processFunction callback)
      (emit maybeServiceJob w)).

Definition process_finish (done : Callback) (err : option Error)
    (w : World) : World :=
  done None (emit stopProcess (releaseClient w)).

Definition process (budget : nat) (J : Jobs)
    (processFunction : ProcessFunction) (done : option Callback)
    (w : World) : World :=
  let done := default (fun _ w => w) done in
  let connected (err : option Error) : World -> World :=
    match err with
    | Some e => done (Some e)
    | None =>
        whilst budget (continueProcessing J)
               (process_iterator J processFunction) (process_finish done)
    end in
  connect (db (options J)) connected (process_enter J w).

Definition processNow (J : Jobs) (jobId : JobId)
    (processFunction : ProcessFunction) (done : option Callback)
    (w : World) : World :=
  let done := default (fun _ w => w) done in
  let connected (err : option Error) : World -> World :=
    match err with
    | Some e => done (Some e)
    | None =>
        let processed (err : option Error) (w : World) : World :=
          done err (releaseClient (jobsModel_unlock jobId w)) in
        let gotData := getJobProcessor J true processFunction processed in
        let gotLock (err : option Error) : World -> World :=
          match err with
          | Some e => done (Some e)
          | None => jobsModel_getDataForJob jobId gotData
          end in
        jobsModel_obtainLock jobId gotLock
    end in
  connect (db (options J)) connected w.

End Controller.

Arguments World : clear implicits.
Arguments Callback : clear implicits.

(** ** An in-memory job store

    The job store [../models/jobs] is not among the sources, and [pg] and
    [pg-transaction] are libraries.  The instance below follows the words of
    the specification: the store contract of its section 6, the data model
    of its section 3 and the session of its section 4.2.  Every operation
    first consults a fault plan, so that any single operation can be made to
    fail. *)

(** Modelled from the spec: the stored fields of a Job (section 3), [data],
    [due_at] and [processed_at]; the job store is missing from the
    sources. *)
Record Job : Type := mkJob {
  job_data : Data;
  due_at : option Z;
  processed_at : option Z
}.

(** Modelled from the spec: the database behind the missing job store, as
    one session sees it: committed rows, the rows of the open transaction,
    row locks, and the plan of the faults to come. *)
Record MemDb : Type := mkMemDb {
  durable : gmap JobId Job;            (* committed rows *)
  pending : option (gmap JobId Job);   (* rows as seen inside the open
                                          transaction, if there is one *)
  held : list JobId;                   (* locks taken with obtainLock *)
  foreign : list JobId;                (* rows locked by other sessions *)
  next_id : JobId;
  faults : list (option Error)         (* one entry per operation, in order;
                                          a missing entry is no fault *)
}.

#[global] Instance Job_eq_dec : EqDecision Job.
Proof. solve_decision. Defined.

(** The rows the session currently sees. *)
Definition view (s : MemDb) : gmap JobId Job :=
  default (durable s) (pending s).

(** A write goes to the open transaction if there is one, else straight
    to the committed rows. *)
Definition set_view (m : gmap JobId Job) (s : MemDb) : MemDb :=
  mkMemDb (match pending s with Some _ => durable s | None => m end)
          (match pending s with Some _ => Some m | None => None end)
          (held s) (foreign s) (next_id s) (faults s).

(** Takes the next entry of the fault plan. *)
Definition draw (s : MemDb) : option Error * MemDb :=
  (default None (head (faults s)),
   mkMemDb (durable s) (pending s) (held s) (foreign s) (next_id s)
           (tail (faults s))).

(** Modelled from the spec: how the missing [write] computes [due_at] from
    a delay, "null => inactive", else now plus the delay. *)
Definition due_from (now : Z) (processIn : JsDelay) : option Z :=
  match processIn with
  | Ms n => Some (now + n)
  | Null | Undefined => None
  end.

(** Modelled from the spec: acquiring a connection ([pg.connect], absent),
    which can only fail with the error drawn from the plan. *)
Definition mem_connect (uri : string) (s : MemDb) : MemDb * option Error :=
  let '(f, s) := draw s in (s, f).

(** Modelled from the spec: [begin()] of the transactional session (absent):
    from here on the session works on its own copy of the rows. *)
Definition mem_begin (s : MemDb) : MemDb * option Error :=
  let '(f, s) := draw s in
  match f with
  | Some e => (s, Some e)
  | None =>
      (mkMemDb (durable s) (Some (view s)) (held s) (foreign s) (next_id s)
               (faults s), None)
  end.

(** Modelled from the spec: [commit()] of the transactional session
    (absent) makes the rows of the transaction the committed rows; a commit
    that fails leaves nothing of the transaction behind ("the session's
    rollback semantics apply"). *)
Definition mem_commit (s : MemDb) : MemDb * option Error :=
  let '(f, s) := draw s in
  match f with
  | Some e =>
      (mkMemDb (durable s) None (held s) (foreign s) (next_id s) (faults s),
       Some e)
  | None =>
      (mkMemDb (view s) None (held s) (foreign s) (next_id s) (faults s),
       None)
  end.

(** Modelled from the spec: [rollback()] of the transactional session
    (absent) drops the rows of the transaction. *)
Definition mem_rollback (s : MemDb) : MemDb * option Error :=
  let '(f, s) := draw s in
  (mkMemDb (durable s) None (held s) (foreign s) (next_id s) (faults s), f).

(** Modelled from the spec: [write] of the missing job store, "insert if id
    is null, else update in place; computes [due_at] from delay". *)
Definition mem_write (now : Z) (id : option JobId) (processIn : JsDelay)
    (d : Data) (s : MemDb) : MemDb * (option Error * option JobId) :=
  let '(f, s) := draw s in
  match f with
  | Some e => (s, (Some e, None))
  | None =>
      match id with
      | None =>
          let s' := set_view (<[next_id s := mkJob d (due_from now processIn)
                                                   None]> (view s)) s in
          (mkMemDb (durable s') (pending s') (held s') (foreign s')
                   (S (next_id s)) (faults s'),
           (None, Some (next_id s)))
      | Some i =>
          (set_view (alter (fun j => mkJob d (due_from now processIn)
                                           (processed_at j)) i (view s)) s,
           (None, Some i))
      end
  end.

(** Modelled from the spec: [setProcessedNow] of the missing job store,
    "stamps completion time within the active transaction". *)
Definition mem_setProcessedNow (now : Z) (id : JobId) (s : MemDb)
    : MemDb * option Error :=
  let '(f, s) := draw s in
  match f with
  | Some e => (s, Some e)
  | None =>
      (set_view (alter (fun j => mkJob (job_data j) (due_at j) (Some now)) id
                       (view s)) s, None)
  end.

(** Modelled from the spec: a due job (glossary) is one whose [due_at] is
    not null and has passed; [nextToProcess] of the missing job store "must
    not return a job already locked by another session". *)
Definition is_due (now : Z) (s : MemDb) (row : JobId * Job) : bool :=
  match due_at row.2 with
  | Some t => (t <=? now) && negb (bool_decide (row.1 ∈ foreign s))
  | None => false
  end.

(** Modelled from the spec: [nextToProcess] of the missing job store
    selects one due job, or reports none available. *)
Definition mem_nextToProcess (now : Z) (s : MemDb)
    : MemDb * (option Error * option JobSnap) :=
  let '(f, s) := draw s in
  match f with
  | Some e => (s, (Some e, None))
  | None =>
      (s, (None,
           (fun row : JobId * Job => mkJobSnap row.1 (job_data row.2))
             <$> List.find (is_due now s) (map_to_list (view s))))
  end.

(** Modelled from the spec: [obtainLock] of the missing job store "fails if
    the job does not exist or cannot be locked", and that failure is the
    JobNotFoundError of section 4.1. *)
Definition mem_obtainLock (id : JobId) (s : MemDb) : MemDb * option Error :=
  let '(f, s) := draw s in
  match f with
  | Some e => (s, Some e)
  | None =>
      if bool_decide (is_Some (view s !! id) ∧ id ∉ foreign s) then
        (mkMemDb (durable s) (pending s) (id :: held s) (foreign s)
                 (next_id s) (faults s), None)
      else (s, Some JobNotFoundError)
  end.

(** Modelled from the spec: [unlock] of the missing job store "releases a
    lock obtained via obtainLock". *)
Definition mem_unlock (id : JobId) (s : MemDb) : MemDb * option Error :=
  let '(f, s) := draw s in
  match f with
  | Some e => (s, Some e)
  | None =>
      (mkMemDb (durable s) (pending s)
               (List.filter (fun i => negb (bool_decide (i = id))) (held s))
               (foreign s) (next_id s) (faults s), None)
  end.

(** Modelled from the spec: [getDataForJob] of the missing job store gives
    the snapshot of the job; for an id without a row there is none to
    give. *)
Definition mem_getDataForJob (id : JobId) (s : MemDb)
    : MemDb * (option Error * option JobSnap) :=
  let '(f, s) := draw s in
  match f with
  | Some e => (s, (Some e, None))
  | None => (s, (None, (fun j => mkJobSnap id (job_data j)) <$> view s !! id))
  end.

(** Modelled from the spec: the collaborators missing from the sources,
    assembled from the operations above. *)
#[global] Instance MemStore : Store MemDb := {
  pg_connect := mem_connect;
  tx_begin := mem_begin;
  tx_commit := mem_commit;
  tx_rollback := mem_rollback;
  write := mem_write;
  setProcessedNow := mem_setProcessedNow;
  nextToProcess := mem_nextToProcess;
  obtainLock := mem_obtainLock;
  unlock := mem_unlock;
  getDataForJob := mem_getDataForJob
}.

(** A world around an in-memory store: flag undefined, nothing checked out,
    empty trace. *)
Definition mem_world (s : MemDb) (t : Z) (a : list (list ExtCall))
    : World MemDb :=
  mkWorld None s 0%nat t [] a false.

(** The callback an observer passes as [done]: it records what it is
    called with. *)
Definition report {Db : Type} : Callback Db :=
  fun err => log (DoneCalled err).

(** ** Vocabulary of the statements *)

Section Vocabulary.
Context {Db : Type} `{!Store Db}.

(** [f], started in [w], calls the callback it is given once, with [err],
    in the world [w'], and nothing runs after that call. *)
Definition calls_back (f : Callback Db -> World Db -> World Db)
    (w : World Db) (err : option Error) (w' : World Db) : Prop :=
  forall cb : Callback Db, f cb w = cb err w'.

(** The world in which [f], started in [w], calls its callback. *)
Definition at_callback (f : Callback Db -> World Db -> World Db)
    (w : World Db) : World Db :=
  f (fun _ w' => w') w.

(** [w'] is a later state of [w]: the events [evs] happened in between, the
    pool and the budget mark are as they were, and if no other task is
    scheduled the flag is as it was. *)
Record extends (w w' : World Db) (evs : list Event) : Prop := mkExtends {
  ext_trace : trace w' = trace w ++ evs;
  ext_checkedOut : checkedOut w' = checkedOut w;
  ext_parked : parked w' = parked w;
  ext_clock : clock w <= clock w';
  ext_idle : agenda w = [] ->
             agenda w' = [] /\ shouldStillProcess w' = shouldStillProcess w
}.

(** The delay [updateJob] hands to the store. *)
Definition delay_written (processIn : JsDelay) : JsDelay :=
  match processIn with Undefined => Null | _ => processIn end.

(** The name of the notification that closes a service cycle. *)
Definition committed_event (now : bool) : EventName :=
  if now then processNowCommitted else processCommitted.

(** The events of one service cycle between the call of the user's function
    and the closing notification, for a cycle that reports [err]. *)
Definition cycle_events (pf : ProcessFunction) (snap : JobSnap)
    (err : option Error) (evs : list Event) : Prop :=
  match pf (job_id snap) (data snap) with
  | (Some e, _, _) => err = Some e /\ evs = [TxRollback]
  | (None, newData, processIn) =>
      let asked :=
        [Model (CallSetProcessedNow (job_id snap));
         Model (CallWrite (Some (job_id snap)) (delay_written processIn)
                          newData)] in
      (err = None /\ evs = asked ++ [Emit jobUpdated; TxCommit]) \/
      (exists e, err = Some e /\ evs = asked ++ [TxRollback])
  end.

(** The world in which the user's function calls back, for a cycle started
    in [w]. *)
Definition user_returns (snap : JobSnap) (w : World Db) : World Db :=
  yield (log (UserCalled (job_id snap) (data snap)) (begin w)).

(** What [jobsModel.write] answers in a cycle started in [w] whose user
    function reported [(null, newData, processIn)]. *)
Definition rewrite_result (snap : JobSnap) (newData : Data)
    (processIn : JsDelay) (w : World Db)
    : Db * (option Error * option JobId) :=
  let u := jobsModel_setProcessedNow (job_id snap) (user_returns snap w) in
  write (clock u) (Some (job_id snap)) (delay_written processIn) newData
        (database u).

(** The job cannot be located or locked: the store refuses the lock, or it
    grants it and then has no snapshot for the id. *)
Definition unlocatable (jobId : JobId) (s : Db) : Prop :=
  (obtainLock jobId s).2 = Some JobNotFoundError \/
  ((obtainLock jobId s).2 = None /\
   (getDataForJob jobId (obtainLock jobId s).1).2 = (None, None)).

(** The answer of [jobsModel.nextToProcess] to the poll of the iteration
    that starts in [w], and the world in which the iteration receives it. *)
Definition poll_result (w : World Db) : option Error * option JobSnap :=
  (nextToProcess (clock (yield w)) (database (yield w))).2.

Definition poll_answered (w : World Db) : World Db :=
  yield (log (Model CallNextToProcess)
             (set_database
                (nextToProcess (clock (yield w)) (database (yield w))).1
                (emit maybeServiceJob (yield w)))).



End Vocabulary.

(** Every occurrence of [e] in [l] has an occurrence of [a] before it. *)
Fixpoint only_after (a e : Event) (l : list Event) : bool :=
  match l with
  | [] => true
  | x :: l' =>
      if bool_decide (x = a) then true
      else negb (bool_decide (x = e)) && only_after a e l'
  end.

(** No fault among the next [n] operations of the in-memory store. *)
Definition healthy (n : nat) (s : MemDb) : Prop :=
  Forall (fun f => f = None) (take n (faults s)).

(** The claim that both notifications of a cycle come after its commit. *)
Definition notified_after_commit (now : bool) (evs : list Event) : Prop :=
  only_after TxCommit (Emit jobUpdated) evs = true /\
  only_after TxCommit (Emit (committed_event now)) evs = true.

(** ** Concrete worlds *)

(** One job, due since time 0, never processed. *)
Definition example_job : Job := mkJob "{}" (Some 0) None.
Definition example_snap : JobSnap := mkJobSnap 1%nat "{}".
Definition example_db (fs : list (option Error)) : MemDb :=
  mkMemDb {[ 1%nat := example_job ]} None [] [] 2%nat fs.

(** A store where the only job is inactive. *)
Definition drained_db : MemDb :=
  mkMemDb {[ 1%nat := mkJob "{}" None (Some 3) ]} None [] [] 2%nat [].

Definition example_jobs : Jobs := mkJobs (mkOptions "postgres://db" None).
Definition other_jobs : Jobs :=
  mkJobs (mkOptions "postgres://db" (Some 250)).

Definition succeed : ProcessFunction :=
  fun _ _ => (None, "{done:true}"%string, Null).
Definition fail_with (e : Error) : ProcessFunction :=
  fun _ d => (Some e, d, Undefined).

(** A controller about to run something at time 5, nobody else scheduled. *)
Definition fresh_world (s : MemDb) : World MemDb := mem_world s 5 [].

(** A polling loop at an iteration boundary: flag true, one client checked
    out. *)
Definition polling_world (s : MemDb) (a : list (list ExtCall))
    : World MemDb :=
  mkWorld (Some true) s 1 5 [PgConnect "postgres://db"] a false.

(** Somebody calls [stopProcessing] on another instance while the user's
    function is at work (third suspension of the iteration). *)
Definition stop_during_cycle : list (list ExtCall) :=
  [[]; [Elapse 2]; [CallStop other_jobs]; [Elapse 1]].

(** A controller configured with a poll interval one millisecond above the
    largest delay a timer honours. *)
Definition patient_jobs : Jobs :=
  mkJobs (mkOptions "postgres://db" (Some 2147483648)).

(** ** [Jobs.create] *)

Section Creation.
Context {Db : Type} `{!Store Db}.

(** The third argument [pg.connect] hands to its callback: the function that
    returns the client to the pool.  When no client could be obtained there
    is nothing to return and the function does nothing. *)
Definition release_function (err : option Error) : World Db -> World Db :=
  match err with
  | Some _ => fun w => w
  | None => releaseClient
  end.

(** [pg.connect(uri, function (err, db, cb))], for a callback that uses the
    function it is handed. *)
Definition connect_with_release (uri : string)
    (k : option Error -> (World Db -> World Db) -> World Db -> World Db)
    : World Db -> World Db :=
  connect uri (fun err => k err (release_function err)).

(** [done] is called as it is given: unlike the processing entry points,
    [create] has no default for it. *)
Definition create (J : Jobs) (jobData : Data) (processIn : JsDelay)
    (done : option Error -> option JobId -> World Db -> World Db)
    : World Db -> World Db :=
  let connected (err : option Error) (cb : World Db -> World Db)
      : World Db -> World Db :=
    let complete (err : option Error) (jobId : option JobId)
        (w : World Db) : World Db :=
      done err jobId (cb w) in
    match err with
    | Some e => complete (Some e) None
    | None => jobsModel_write None processIn jobData complete
    end in
  connect_with_release (db (options J)) connected.

(** The world in which the [connected] callback of an entry point runs. *)
Definition when_connected (J : Jobs) (w : World Db) : World Db :=
  at_callback (connect (db (options J))) w.

(** The world at the start of the [n]-th next iteration of the polling
    loop, counting from [w]. *)
Definition after_polls (J : Jobs) (pf : ProcessFunction) (n : nat)
    (w : World Db) : World Db :=
  Nat.iter n (at_callback (process_iterator J pf)) w.

(** [w'] comes after [w]: the events [evs] happened in between, and if no
    other task is scheduled the flag is as it was.  Unlike [extends], the
    pool may have changed. *)
Definition follows (w w' : World Db) (evs : list Event) : Prop :=
  trace w' = trace w ++ evs /\
  (agenda w = [] ->
   agenda w' = [] /\ shouldStillProcess w' = shouldStillProcess w).

End Creation.

(** ** The protocol of the polling loop

    The order in which an observer sees the actions of [Jobs.process] after
    the connection is made, as an automaton over the events. *)
Inductive Phase : Type :=
| Idle                      (* between two iterations *)
| Announced                 (* maybeServiceJob emitted *)
| Polled                    (* nextToProcess asked *)
| Drained                   (* drain emitted *)
| Begun                     (* transaction begun *)
| Working (id : JobId)      (* the user's function has the job *)
| Stamped (id : JobId)      (* setProcessedNow asked *)
| Rewritten (id : JobId)    (* write asked *)
| Updated                   (* jobUpdated emitted *)
| Resolved                  (* commit or rollback carried out *)
| Released                  (* client returned *)
| Stopped                   (* stopProcess emitted *)
| Finished.                 (* done called, without error *)

Definition phase_step (p : Phase) (e : Event) : option Phase :=
  match p, e with
  | Idle, Emit maybeServiceJob => Some Announced
  | Announced, Model CallNextToProcess => Some Polled
  | Polled, Emit drain => Some Drained
  | Drained, SetTimeout _ => Some Idle
  | Polled, TxBegin => Some Begun
  | Begun, UserCalled id _ => Some (Working id)
  | Working _, TxRollback => Some Resolved
  | Working id, Model (CallSetProcessedNow id') =>
      if Nat.eqb id id' then Some (Stamped id) else None
  | Stamped id, Model (CallWrite (Some id') (Ms _) _)
  | Stamped id, Model (CallWrite (Some id') Null _) =>
      if Nat.eqb id id' then Some (Rewritten id) else None
  | Rewritten _, Emit jobUpdated => Some Updated
  | Rewritten _, TxRollback => Some Resolved
  | Updated, TxCommit => Some Resolved
  | Resolved, Emit processCommitted => Some Idle
  | Idle, ReleaseClient => Some Released
  | Polled, ReleaseClient => Some Released
  | Released, Emit stopProcess => Some Stopped
  | Stopped, DoneCalled None => Some Finished
  | _, _ => None
  end.

Fixpoint phase_run (p : Phase) (evs : list Event) : option Phase :=
  match evs with
  | [] => Some p
  | e :: evs' =>
      match phase_step p e with
      | Some q => phase_run q evs'
      | None => None
      end
  end.

(** More concrete worlds. *)

(** The first poll fails. *)
Definition failing_poll_db : MemDb := example_db [Some (StoreError 1)].

(** The rewrite of the first cycle fails: begin and stamp pass, write does
    not. *)
Definition failing_write_db : MemDb :=
  example_db [None; None; Some (StoreError 2)].

(** The pool has no connection to give. *)
Definition no_connection_db : MemDb := example_db [Some ConnectionError].

(** [getDataForJob] fails after the lock was granted. *)
Definition failing_data_db : MemDb :=
  example_db [None; None; Some (StoreError 5)].

(** An observer of [create]: records the error it is called with. *)
Definition report_created : option Error -> option JobId ->
                            World MemDb -> World MemDb :=
  fun err _ => report err.

(** ** Suspension leaves everything but the flag, the clock and the agenda
    alone *)

Lemma timer_delay_pos (ms : Z) : 1 <= timer_delay ms.
Proof.
  unfold timer_delay, TIMEOUT_MAX.
  destruct (Z.ltb_spec ms 1); simpl; [lia|].
  destruct (Z.ltb_spec 2147483647 ms); lia.
Qed.

(** Within the range of the timers the delay is the one asked for, and
    below it the timer waits longer than asked. *)
Lemma timer_delay_honoured (ms : Z) :
  ms <= TIMEOUT_MAX -> ms <= timer_delay ms.
Proof.
  unfold timer_delay, TIMEOUT_MAX. intros Hms.
  destruct (Z.ltb_spec ms 1); simpl; [lia|].
  destruct (Z.ltb_spec 2147483647 ms); lia.
Qed.

Section Facts.
Context {Db : Type} `{!Store Db}.
Implicit Types (w x : World Db) (J : Jobs).

Lemma run_ext_fold_frame (cs : list ExtCall) w :
  trace (foldl run_ext w cs) = trace w /\
  database (foldl run_ext w cs) = database w /\
  checkedOut (foldl run_ext w cs) = checkedOut w /\
  parked (foldl run_ext w cs) = parked w /\
  clock w <= clock (foldl run_ext w cs).
Proof.
  revert w. induction cs as [|c cs IH]; intros w; simpl.
  - repeat split; lia.
  - destruct (IH (run_ext w c)) as (Ht & Hd & Hc & Hp & Hk).
    rewrite Ht, Hd, Hc, Hp.
    destruct c; simpl in *; repeat split; lia.
Qed.

Lemma yield_frame w :
  trace (yield w) = trace w /\
  database (yield w) = database w /\
  checkedOut (yield w) = checkedOut w /\
  parked (yield w) = parked w /\
  clock w <= clock (yield w).
Proof.
  unfold yield. destruct (agenda w) as [|cs rest].
  - repeat split; lia.
  - apply (run_ext_fold_frame cs (set_agenda rest w)).
Qed.

Lemma yield_trace w : trace (yield w) = trace w.
Proof. apply yield_frame. Qed.

Lemma yield_database w : database (yield w) = database w.
Proof. apply yield_frame. Qed.

Lemma yield_checkedOut w : checkedOut (yield w) = checkedOut w.
Proof. apply yield_frame. Qed.

Lemma yield_clock w : clock w <= clock (yield w).
Proof. apply yield_frame. Qed.

Lemma yield_idle w : agenda w = [] -> yield w = w.
Proof. unfold yield. intros ->. reflexivity. Qed.

Lemma database_log e x : database (log e x) = database x.
Proof. reflexivity. Qed.

Lemma database_set_database d x : database (set_database d x) = d.
Proof. reflexivity. Qed.

Lemma database_set_clock t x : database (set_clock t x) = database x.
Proof. reflexivity. Qed.

Lemma database_set_checkedOut n x :
  database (set_checkedOut n x) = database x.
Proof. reflexivity. Qed.

Lemma clock_log e x : clock (log e x) = clock x.
Proof. reflexivity. Qed.

Lemma clock_set_database d x : clock (set_database d x) = clock x.
Proof. reflexivity. Qed.

Lemma trace_log e x : trace (log e x) = trace x ++ [e].
Proof. reflexivity. Qed.

Lemma trace_set_database d x : trace (set_database d x) = trace x.
Proof. reflexivity. Qed.

Lemma trace_set_checkedOut n x : trace (set_checkedOut n x) = trace x.
Proof. reflexivity. Qed.

(** ** Later states *)

Lemma extends_refl w : extends w w [].
Proof. split; rewrite ?app_nil_r; auto; lia. Qed.

Lemma extends_yield w x evs : extends w x evs -> extends w (yield x) evs.
Proof.
  intros [Ht Hc Hp Hk Hi].
  destruct (yield_frame x) as (Ht' & _ & Hc' & Hp' & Hk').
  split; [congruence | congruence | congruence | lia |].
  intros Hw. destruct (Hi Hw) as [Ha Hf]. rewrite (yield_idle x Ha). auto.
Qed.

Lemma extends_log w x evs e :
  extends w x evs -> extends w (log e x) (evs ++ [e]).
Proof.
  intros [Ht Hc Hp Hk Hi]. split; simpl; auto.
  rewrite Ht, app_assoc. reflexivity.
Qed.

Lemma extends_set_database w x evs d :
  extends w x evs -> extends w (set_database d x) evs.
Proof. intros [Ht Hc Hp Hk Hi]. split; simpl; auto. Qed.

Lemma extends_emit w x evs name :
  extends w x evs -> extends w (emit name x) (evs ++ [Emit name]).
Proof. apply extends_log. Qed.

Lemma extends_set_clock w x evs t :
  clock x <= t -> extends w x evs -> extends w (set_clock t x) evs.
Proof. intros Hms [Ht Hc Hp Hk Hi]. split; simpl; auto. lia. Qed.

Lemma extends_as w x evs evs' :
  extends w x evs -> evs = evs' -> extends w x evs'.
Proof. intros Hx <-. exact Hx. Qed.

Lemma extends_trans w1 w2 w3 evs1 evs2 :
  extends w1 w2 evs1 -> extends w2 w3 evs2 -> extends w1 w3 (evs1 ++ evs2).
Proof.
  intros [Ht Hc Hp Hk Hi] [Ht' Hc' Hp' Hk' Hi'].
  split; [rewrite Ht', Ht, app_assoc; reflexivity | congruence | congruence
         | lia |].
  intros Hw. destruct (Hi Hw) as [Ha Hf]. destruct (Hi' Ha) as [Ha' Hf'].
  split; congruence.
Qed.

End Facts.

(** Peels the updates off the later world, one at a time. *)
Ltac later_state :=
  repeat first
    [ apply extends_yield
    | apply extends_log
    | apply extends_set_database
    | apply extends_emit
    | apply extends_set_clock;
      [ unfold emit; rewrite ?clock_log;
        match goal with
        | |- context [timer_delay ?ms] => pose proof (timer_delay_pos ms)
        end; lia |]
    | match goal with |- extends ?w ?w _ => apply extends_refl end ].

Ltac later_state_is := eapply extends_as; [later_state | reflexivity].

(** Reads a field through the updates made since. *)
Ltac read_world :=
  repeat first
    [ rewrite database_log
    | rewrite database_set_database
    | rewrite database_set_clock
    | rewrite database_set_checkedOut
    | rewrite yield_database
    | rewrite clock_log
    | rewrite clock_set_database
    | rewrite trace_log
    | rewrite trace_set_database
    | rewrite trace_set_checkedOut
    | rewrite yield_trace ].

(** ** One service cycle, one iteration, the loop *)

Section Cycle.
Context {Db : Type} `{!Store Db}.
Implicit Types (w x : World Db) (J : Jobs) (pf : ProcessFunction).

Lemma calls_back_at f w err w' :
  calls_back f w err w' -> at_callback f w = w'.
Proof. intros Hf. apply (Hf (fun _ x => x)). Qed.

(** The shape of every service cycle. *)
Lemma processJob_cycle J (now : bool) pf (snap : JobSnap) w :
  exists err w' evs,
    calls_back (fun cb => processJob J now pf cb snap) w err w' /\
    extends w w' ([TxBegin; UserCalled (job_id snap) (data snap)]
                    ++ evs ++ [Emit (committed_event now)]) /\
    cycle_events pf snap err evs.
Proof.
  unfold calls_back, processJob, serviceJob, cycle_events.
  destruct (pf (job_id snap) (data snap)) as [[[e|] newData] processIn].
  - eexists (Some e), _, _. split; [intros cb; reflexivity|].
    split; [|split; reflexivity].
    unfold emit, begin. later_state_is.
  - unfold updateJob, jobsModel_write.
    match goal with
    | |- context [write ?t ?i ?p ?d ?s] =>
        destruct (write t i p d s) as [s' [[e|] r]] eqn:Hw
    end.
    + eexists (Some e), _, _. split; [intros cb; reflexivity|].
      split; [|right; eauto].
      unfold emit, begin, jobsModel_setProcessedNow. later_state_is.
    + eexists None, _, _. split; [intros cb; reflexivity|].
      split; [|left; eauto].
      unfold emit, begin, jobsModel_setProcessedNow. later_state_is.
Qed.

(** A cycle whose user function reports an error: nothing is asked of the
    store but to roll back. *)
Lemma processJob_user_error J (now : bool) pf (snap : JobSnap) w e d p :
  pf (job_id snap) (data snap) = (Some e, d, p) ->
  exists w',
    calls_back (fun cb => processJob J now pf cb snap) w (Some e) w' /\
    extends w w' [TxBegin; UserCalled (job_id snap) (data snap); TxRollback;
                  Emit (committed_event now)] /\
    database w' = (tx_rollback (tx_begin (database w)).1).1.
Proof.
  intros Hpf. unfold calls_back, processJob, serviceJob. rewrite Hpf.
  eexists. split; [intros cb; reflexivity|]. split.
  - unfold emit, begin. later_state_is.
  - unfold emit, begin. read_world. reflexivity.
Qed.

(** A cycle whose user function reports success and whose rewrite is
    accepted by the store. *)
Lemma processJob_commits J (now : bool) pf (snap : JobSnap) w d p :
  pf (job_id snap) (data snap) = (None, d, p) ->
  (rewrite_result snap d p w).2.1 = None ->
  exists w',
    calls_back (fun cb => processJob J now pf cb snap) w None w' /\
    extends w w' [TxBegin; UserCalled (job_id snap) (data snap);
                  Model (CallSetProcessedNow (job_id snap));
                  Model (CallWrite (Some (job_id snap)) (delay_written p) d);
                  Emit jobUpdated; TxCommit; Emit (committed_event now)] /\
    database w' = (tx_commit (rewrite_result snap d p w).1).1 /\
    clock w <= clock (user_returns snap w) <= clock w'.
Proof.
  intros Hpf Hw. unfold calls_back, processJob, serviceJob. rewrite Hpf.
  unfold updateJob, jobsModel_write.
  unfold rewrite_result in *. fold (user_returns snap w).
  fold (delay_written p).
  set (u := jobsModel_setProcessedNow (job_id snap) (user_returns snap w))
    in *.
  destruct (write (clock u) (Some (job_id snap)) (delay_written p) d
                  (database u)) as [s' [err r]] eqn:Hwr.
  simpl in Hw. subst err.
  eexists. split; [intros cb; reflexivity|]. split; [|split].
  - subst u. unfold emit, begin, jobsModel_setProcessedNow, user_returns.
    later_state_is.
  - unfold emit, commit. read_world. reflexivity.
  - assert (Hu : extends w (user_returns snap w)
                   [TxBegin; UserCalled (job_id snap) (data snap)])
      by (unfold user_returns, begin; later_state_is).
    split; [apply Hu|].
    match goal with
    | |- _ <= clock ?x =>
        enough (Hx : extends (user_returns snap w) x
                  [Model (CallSetProcessedNow (job_id snap));
                   Model (CallWrite (Some (job_id snap)) (delay_written p)
                                    d);
                   Emit jobUpdated; TxCommit; Emit (committed_event now)])
          by apply Hx
    end.
    subst u. unfold emit, jobsModel_setProcessedNow.
    generalize (user_returns snap w). intros v. later_state_is.
Qed.

(** The rewrite of a cycle, in terms of the store alone: the stamp and the
    rewrite are made at the time the user's function calls back, on the
    database as [begin] left it. *)
Lemma rewrite_result_eq (snap : JobSnap) (d : Data) (p : JsDelay) w :
  rewrite_result snap d p w =
  write (clock (user_returns snap w)) (Some (job_id snap)) (delay_written p)
        d (setProcessedNow (clock (user_returns snap w)) (job_id snap)
                           (tx_begin (database w)).1).1.
Proof.
  assert (Hdb : database (user_returns snap w) = (tx_begin (database w)).1)
    by (unfold user_returns, begin; read_world; reflexivity).
  unfold rewrite_result, jobsModel_setProcessedNow.
  rewrite clock_log, clock_set_database, database_log, database_set_database,
    Hdb.
  reflexivity.
Qed.

(** ** One iteration of the polling loop *)

Lemma iterator_poll_error J pf w e r :
  poll_result w = (Some e, r) ->
  exists w',
    calls_back (process_iterator J pf) w (Some e) w' /\
    extends w w' [Emit maybeServiceJob; Model CallNextToProcess].
Proof.
  unfold poll_result, calls_back, process_iterator, setImmediate,
    jobsModel_nextToProcess, emit.
  rewrite clock_log, database_log.
  destruct (nextToProcess _ _) as [s [err r']]. cbn [snd].
  intros [= -> ->].
  eexists. split; [intros cb; reflexivity|]. later_state_is.
Qed.

Lemma iterator_drained J pf w :
  poll_result w = (None, None) ->
  exists w',
    calls_back (process_iterator J pf) w None w' /\
    extends w w' [Emit maybeServiceJob; Model CallNextToProcess; Emit drain;
                  SetTimeout (pollInterval_or_default (options J))] /\
    clock (poll_answered w) + timer_delay (pollInterval_or_default (options J))
      <= clock w'.
Proof.
  unfold poll_result, poll_answered, calls_back, process_iterator,
    setImmediate, jobsModel_nextToProcess, emit.
  rewrite clock_log, database_log.
  destruct (nextToProcess _ _) as [s [err r']]. cbn [fst snd].
  intros [= -> ->].
  eexists. split; [intros cb; reflexivity|]. split.
  - later_state_is.
  - etransitivity; [|apply yield_clock]. cbn [clock set_clock].
    unfold emit. rewrite !clock_log. lia.
Qed.

Lemma iterator_services J pf w (snap : JobSnap) :
  poll_result w = (None, Some snap) ->
  exists err w' evs,
    calls_back (process_iterator J pf) w err w' /\
    extends w w' ([Emit maybeServiceJob; Model CallNextToProcess; TxBegin;
                   UserCalled (job_id snap) (data snap)]
                    ++ evs ++ [Emit processCommitted]) /\
    cycle_events pf snap err evs.
Proof.
  unfold poll_result, calls_back, process_iterator, setImmediate,
    jobsModel_nextToProcess, emit.
  rewrite clock_log, database_log.
  destruct (nextToProcess _ _) as [s [err r']]. cbn [snd].
  intros [= -> ->]. unfold getJobProcessor.
  match goal with
  | |- context [processJob _ _ _ _ _ ?x] =>
      destruct (processJob_cycle J false pf snap x)
        as (err & w' & evs & Hcb & Hext & Hev);
      assert (Hx : extends w x [Emit maybeServiceJob; Model CallNextToProcess])
        by later_state_is
  end.
  exists err, w', evs. split; [|split; [|exact Hev]].
  - intros cb. apply Hcb.
  - eapply extends_as; [eapply extends_trans; [exact Hx | exact Hext]|].
    reflexivity.
Qed.

Lemma poll_answered_trace w :
  trace (poll_answered w)
  = trace w ++ [Emit maybeServiceJob; Model CallNextToProcess].
Proof.
  unfold poll_answered, emit. read_world. rewrite <- app_assoc. reflexivity.
Qed.

(** An iteration whose poll finds a job is the service cycle of that job,
    started in the world in which the poll was answered. *)
Lemma iterator_services_at J pf w (snap : JobSnap) :
  poll_result w = (None, Some snap) ->
  forall cb : Callback Db,
    process_iterator J pf cb w
    = processJob J false pf cb snap (poll_answered w).
Proof.
  unfold poll_result, poll_answered, process_iterator, setImmediate,
    jobsModel_nextToProcess, emit.
  rewrite clock_log, database_log.
  destruct (nextToProcess _ _) as [s [err r']]. cbn [fst snd].
  intros [= -> ->] cb. reflexivity.
Qed.

(** A cycle whose user function reports success and whose rewrite the
    store refuses. *)
Lemma processJob_rewrite_refused J (now : bool) pf (snap : JobSnap) w d p e :
  pf (job_id snap) (data snap) = (None, d, p) ->
  (rewrite_result snap d p w).2.1 = Some e ->
  exists w',
    calls_back (fun cb => processJob J now pf cb snap) w (Some e) w' /\
    extends w w' [TxBegin; UserCalled (job_id snap) (data snap);
                  Model (CallSetProcessedNow (job_id snap));
                  Model (CallWrite (Some (job_id snap)) (delay_written p) d);
                  TxRollback; Emit (committed_event now)] /\
    database w' = (tx_rollback (rewrite_result snap d p w).1).1.
Proof.
  intros Hpf Hw. unfold calls_back, processJob, serviceJob. rewrite Hpf.
  unfold updateJob, jobsModel_write.
  unfold rewrite_result in *. fold (user_returns snap w).
  fold (delay_written p).
  set (u := jobsModel_setProcessedNow (job_id snap) (user_returns snap w))
    in *.
  destruct (write (clock u) (Some (job_id snap)) (delay_written p) d
                  (database u)) as [s' [err r]] eqn:Hwr.
  cbn [fst snd] in Hw. subst err.
  eexists. split; [intros cb; reflexivity|]. split.
  - subst u. unfold emit, begin, jobsModel_setProcessedNow, user_returns.
    later_state_is.
  - unfold emit, rollback. read_world. reflexivity.
Qed.

(** ** [async.whilst] *)

Lemma whilst_stopped (budget : nat) test it (fin : Callback Db) w :
  truthy_flag (test w) = false -> whilst budget test it fin w = fin None w.
Proof. intros Ht. destruct budget; simpl; rewrite Ht; reflexivity. Qed.

Lemma whilst_step (budget : nat) test it (fin : Callback Db) w err w' :
  truthy_flag (test w) = true ->
  calls_back it w err w' ->
  whilst (S budget) test it fin w =
  match err with
  | Some e => fin (Some e) w'
  | None => whilst budget test it fin w'
  end.
Proof.
  intros Ht Hit. simpl. rewrite Ht. rewrite Hit. destruct err; reflexivity.
Qed.

(** ** Connecting *)

Lemma connect_calls (uri : string) w :
  exists w',
    (forall k : Callback Db,
        connect uri k w = k (pg_connect uri (database w)).2 w') /\
    trace w' = trace w ++ [PgConnect uri] /\
    database w' = (pg_connect uri (database w)).1 /\
    checkedOut w' = match (pg_connect uri (database w)).2 with
                    | Some _ => checkedOut w
                    | None => S (checkedOut w)
                    end /\
    (agenda w = [] ->
     agenda w' = [] /\ shouldStillProcess w' = shouldStillProcess w).
Proof.
  unfold connect. destruct (pg_connect uri (database w)) as [d [e|]].
  - eexists. split; [intros k; reflexivity|]. cbn [fst snd].
    split; [read_world; reflexivity|]. split; [read_world; reflexivity|].
    split; [rewrite yield_checkedOut; reflexivity|].
    intros Ha. rewrite yield_idle by exact Ha. auto.
  - eexists. split; [intros k; reflexivity|]. cbn [fst snd].
    split; [read_world; reflexivity|]. split; [read_world; reflexivity|].
    split; [rewrite yield_checkedOut; reflexivity|].
    intros Ha. rewrite yield_idle by exact Ha. auto.
Qed.

(** With nobody else scheduled, a polling loop leaves the flag as it was
    set when it was entered. *)
Lemma whilst_keeps_flag J pf (budget : nat) w :
  agenda w = [] ->
  shouldStillProcess w = Some true ->
  shouldStillProcess
    (whilst budget (continueProcessing J) (process_iterator J pf)
            (process_finish report) w) = Some true.
Proof.
  revert w. induction budget as [|budget IH]; intros w Ha Hf.
  - simpl. unfold continueProcessing. rewrite Hf. simpl. exact Hf.
  - destruct (poll_result w) as [[e|] [snap|]] eqn:Hpoll.
    + destruct (iterator_poll_error J pf w e _ Hpoll) as (w' & Hcb & Hext).
      rewrite (whilst_step _ _ _ _ _ _ _ ltac:(unfold continueProcessing;
                 rewrite Hf; reflexivity) Hcb).
      destruct (ext_idle _ _ _ Hext Ha) as [_ Hf']. simpl. congruence.
    + destruct (iterator_poll_error J pf w e _ Hpoll) as (w' & Hcb & Hext).
      rewrite (whilst_step _ _ _ _ _ _ _ ltac:(unfold continueProcessing;
                 rewrite Hf; reflexivity) Hcb).
      destruct (ext_idle _ _ _ Hext Ha) as [_ Hf']. simpl. congruence.
    + destruct (iterator_services J pf w snap Hpoll)
        as (err & w' & evs & Hcb & Hext & _).
      rewrite (whilst_step _ _ _ _ _ _ _ ltac:(unfold continueProcessing;
                 rewrite Hf; reflexivity) Hcb).
      destruct (ext_idle _ _ _ Hext Ha) as [Ha' Hf'].
      destruct err; [simpl; congruence|]. apply IH; congruence.
    + destruct (iterator_drained J pf w Hpoll) as (w' & Hcb & Hext & _).
      rewrite (whilst_step _ _ _ _ _ _ _ ltac:(unfold continueProcessing;
                 rewrite Hf; reflexivity) Hcb).
      destruct (ext_idle _ _ _ Hext Ha) as [Ha' Hf'].
      apply IH; congruence.
Qed.

(** An error handed to the loop by an iteration ends the loop, and
    [finish] calls [done] without it. *)
Lemma whilst_error_finishes J pf (done : Callback Db) (budget : nat) w e w' :
  truthy_flag (continueProcessing J w) = true ->
  calls_back (process_iterator J pf) w (Some e) w' ->
  whilst (S budget) (continueProcessing J) (process_iterator J pf)
         (process_finish done) w
  = done None (emit stopProcess (releaseClient w')).
Proof.
  intros Hrun Hcb. rewrite (whilst_step budget _ _ _ w (Some e) w' Hrun Hcb).
  reflexivity.
Qed.

(** When the lock is refused, [processNow] calls [done] with the store's
    error and keeps the client. *)
Lemma processNow_lock_refused J (jobId : JobId) pf (done : Callback Db) w e :
  (pg_connect (db (options J)) (database w)).2 = None ->
  (obtainLock jobId (pg_connect (db (options J)) (database w)).1).2
  = Some e ->
  exists w',
    processNow J jobId pf (Some done) w = done (Some e) w' /\
    trace w' = trace w ++ [PgConnect (db (options J));
                           Model (CallObtainLock jobId)] /\
    checkedOut w' = S (checkedOut w).
Proof.
  intros Hok Hlock.
  destruct (connect_calls (db (options J)) w)
    as (w1 & Hk & Ht & Hd & Hc & _).
  rewrite Hok in Hc.
  unfold processNow. rewrite Hk, Hok. cbn [default].
  unfold jobsModel_obtainLock. rewrite Hd.
  destruct (obtainLock jobId _) as [s e']. cbn [snd] in Hlock. subst e'.
  eexists. split; [reflexivity|]. split.
  - read_world. rewrite Ht, <- app_assoc. reflexivity.
  - rewrite yield_checkedOut. exact Hc.
Qed.

(** Once the lock is granted, every way out of [processNow] goes through
    [processed]: unlock, release, then [done]. *)
Lemma processNow_releases_once_locked J (jobId : JobId) pf
    (done : Callback Db) w :
  (pg_connect (db (options J)) (database w)).2 = None ->
  (obtainLock jobId (pg_connect (db (options J)) (database w)).1).2 = None ->
  exists err x,
    processNow J jobId pf (Some done) w
    = done err (releaseClient (jobsModel_unlock jobId x)).
Proof.
  intros Hok Hlock.
  destruct (connect_calls (db (options J)) w) as (w1 & Hk & _ & Hd & _).
  unfold processNow. rewrite Hk, Hok. cbn [default].
  unfold jobsModel_obtainLock. rewrite Hd.
  destruct (obtainLock jobId _) as [s e]. cbn [snd] in Hlock. subst e.
  unfold jobsModel_getDataForJob.
  destruct (getDataForJob jobId _) as [s' [[e|] [snap|]]];
    unfold getJobProcessor.
  - eexists _, _. reflexivity.
  - eexists _, _. reflexivity.
  - match goal with
    | |- context [processJob _ _ _ _ _ ?x] =>
        destruct (processJob_cycle J true pf snap x)
          as (err & w' & evs & Hcb & _)
    end.
    exists err, w'. apply Hcb.
  - eexists _, _. reflexivity.
Qed.

End Cycle.
(** ** What the controller guarantees with any store *)

Section Claims.
Context {Db : Type} `{!Store Db}.
Implicit Types (w x : World Db) (J A B : Jobs) (pf : ProcessFunction).

(** The error and the world a function calls back with are determined. *)
Lemma calls_back_unique f w err1 w1 err2 w2 :
  calls_back f w err1 w1 -> calls_back f w err2 w2 ->
  err1 = err2 /\ w1 = w2.
Proof.
  intros H1 H2.
  assert (Hw : w1 = w2).
  { pose proof (H1 (fun _ x => x)) as Ha. rewrite (H2 (fun _ x => x)) in Ha.
    congruence. }
  subst w2. split; [|reflexivity].
  pose proof (H1 report) as Ha. rewrite (H2 report) in Ha.
  unfold report in Ha. apply (f_equal trace) in Ha. rewrite !trace_log in Ha.
  apply app_inv_head in Ha. congruence.
Qed.

(** C5: when the job cannot be located or locked, [processNow] calls back
    with [JobNotFoundError] and no [jobUpdated] is emitted on the way; a
    poll that finds no job is not an error: the iteration emits [drain],
    sleeps and hands no error to the loop, which goes on. *)
Theorem job_not_found_is_an_error_only_for_processNow J pf :
  (forall (jobId : JobId) (done : Callback Db) w,
      (pg_connect (db (options J)) (database w)).2 = None ->
      unlocatable jobId (pg_connect (db (options J)) (database w)).1 ->
      exists w' evs,
        processNow J jobId pf (Some done) w = done (Some JobNotFoundError) w'
        /\ trace w' = trace w ++ evs
        /\ Emit jobUpdated ∉ evs) /\
  (forall (budget : nat) (fin : Callback Db) w,
      truthy_flag (continueProcessing J w) = true ->
      poll_result w = (None, None) ->
      exists w',
        calls_back (process_iterator J pf) w None w'
        /\ trace w' = trace w ++ [Emit maybeServiceJob;
                                  Model CallNextToProcess; Emit drain;
                                  SetTimeout
                                    (pollInterval_or_default (options J))]
        /\ whilst (S budget) (continueProcessing J) (process_iterator J pf)
                  fin w
           = whilst budget (continueProcessing J) (process_iterator J pf)
                    fin w').
Proof.
  split.
  - intros jobId done w Hok Hno.
    destruct (connect_calls (db (options J)) w) as (w1 & Hk & Ht & Hd & _).
    unfold processNow. rewrite Hk, Hok. cbn [default].
    unfold jobsModel_obtainLock. rewrite Hd.
    destruct Hno as [Hlock | [Hlock Hdata]].
    + destruct (obtainLock jobId _) as [s e]. cbn [snd] in Hlock. subst e.
      eexists _, _. split; [reflexivity|]. split.
      * read_world. rewrite Ht, <- app_assoc. reflexivity.
      * cbn [app]. rewrite !not_elem_of_cons. repeat split; try discriminate.
        apply not_elem_of_nil.
    + destruct (obtainLock jobId _) as [s e]. cbn [fst snd] in *. subst e.
      unfold jobsModel_getDataForJob. read_world.
      destruct (getDataForJob jobId s) as [s' [e r]]. cbn [snd] in Hdata.
      injection Hdata as -> ->. unfold getJobProcessor.
      eexists _, _. split; [reflexivity|]. split.
      * unfold releaseClient, jobsModel_unlock. read_world.
        rewrite Ht, <- !app_assoc. reflexivity.
      * cbn [app]. rewrite !not_elem_of_cons. repeat split; try discriminate.
        apply not_elem_of_nil.
  - intros budget fin w Hrun Hpoll.
    destruct (iterator_drained J pf w Hpoll) as (w' & Hcb & Hext & _).
    exists w'. split; [exact Hcb|]. split; [apply Hext|].
    apply (whilst_step budget _ _ fin w None w' Hrun Hcb).
Qed.

(** C7, as the code has it: a cycle that reports success asked the store
    for the stamp and the rewrite, emitted [jobUpdated] when the rewrite
    was accepted and before the commit was issued, and emitted the commit
    notification after the commit had completed. *)
Theorem commit_notification_follows_commit J (now : bool) pf
    (snap : JobSnap) w w' :
  calls_back (fun cb => processJob J now pf cb snap) w None w' ->
  exists newData processIn,
    pf (job_id snap) (data snap) = (None, newData, processIn) /\
    extends w w' [TxBegin; UserCalled (job_id snap) (data snap);
                  Model (CallSetProcessedNow (job_id snap));
                  Model (CallWrite (Some (job_id snap))
                                   (delay_written processIn) newData);
                  Emit jobUpdated; TxCommit; Emit (committed_event now)].
Proof.
  intros Hcb.
  destruct (processJob_cycle J now pf snap w) as (err & x & evs & Hx & Hext
                                                   & Hev).
  destruct (calls_back_unique _ _ _ _ _ _ Hcb Hx) as [<- <-].
  unfold cycle_events in Hev.
  destruct (pf (job_id snap) (data snap)) as [[[e|] newData] processIn].
  - destruct Hev as [Hev _]. discriminate.
  - exists newData, processIn. split; [reflexivity|].
    destruct Hev as [[_ ->] | (e & He & _)]; [|discriminate].
    exact Hext.
Qed.

(** C8, within the range of the timers: an iteration whose poll finds no
    job emits one [drain] and hands control back to the loop, hence to the
    next store query, no sooner than [pollInterval] milliseconds after it
    learnt that the queue was empty, 1000 when [pollInterval] is unset,
    provided [pollInterval] is not above the largest delay a timer
    honours. *)
Theorem idle_backoff J pf w :
  (forall p : Z, pollInterval (options J) = Some p -> p <= TIMEOUT_MAX) ->
  poll_result w = (None, None) ->
  exists w' evs,
    calls_back (process_iterator J pf) w None w' /\
    trace w' = trace w ++ evs /\
    evs = [Emit maybeServiceJob; Model CallNextToProcess; Emit drain;
           SetTimeout (pollInterval_or_default (options J))] /\
    length (filter (fun e => e = Emit drain) evs) = 1%nat /\
    clock (poll_answered w) + default 1000 (pollInterval (options J))
      <= clock w'.
Proof.
  intros Hrange Hpoll.
  destruct (iterator_drained J pf w Hpoll) as (w' & Hcb & Hext & Hclock).
  exists w'. eexists. split; [exact Hcb|]. split; [apply Hext|].
  split; [reflexivity|]. split; [reflexivity|].
  etransitivity; [|exact Hclock].
  apply Z.add_le_mono_l.
  unfold pollInterval_or_default, truthy_number.
  destruct (pollInterval (options J)) as [p|] eqn:Hp; simpl.
  - destruct (Z.eqb_spec p 0) as [-> | Hnz]; simpl.
    + pose proof (timer_delay_pos 1000). lia.
    + apply timer_delay_honoured. apply Hrange. reflexivity.
  - apply timer_delay_honoured. unfold TIMEOUT_MAX. lia.
Qed.

(** C9: [stopProcessing] changes nothing but the flag.  When it is called
    while a service cycle is in flight (the transaction has begun; the
    flag, true when the iteration started, is false when the iteration
    calls back), the cycle is carried out as the user's function and the
    store decide, exactly as without the call: rolled back when the user
    reports an error or the store refuses the rewrite, stamped, rewritten
    and committed otherwise, with the closing notification in each case.
    The loop then ends without another poll, and [stopProcess] is emitted
    after all of that. *)
Theorem stop_is_not_preemptive J pf (done : Callback Db) (budget : nat) w
    (snap : JobSnap) :
  truthy_flag (continueProcessing J w) = true ->
  poll_result w = (None, Some snap) ->
  (tx_begin (database (poll_answered w))).2 = None ->
  continueProcessing J (at_callback (process_iterator J pf) w) = Some false ->
  (forall J' x,
      stopProcessing J' x =
      mkWorld (Some false) (database x) (checkedOut x) (clock x) (trace x)
              (agenda x) (parked x)) /\
  exists err w',
    calls_back (process_iterator J pf) w err w' /\
    whilst (S budget) (continueProcessing J) (process_iterator J pf)
           (process_finish done) w
    = done None (emit stopProcess (releaseClient w')) /\
    match pf (job_id snap) (data snap) with
    | (Some e, _, _) =>
        err = Some e /\
        trace w' = trace w ++ [Emit maybeServiceJob; Model CallNextToProcess;
                               TxBegin; UserCalled (job_id snap) (data snap);
                               TxRollback; Emit processCommitted] /\
        database w'
        = (tx_rollback (tx_begin (database (poll_answered w))).1).1
    | (None, newData, processIn) =>
        match (rewrite_result snap newData processIn (poll_answered w)).2.1
        with
        | None =>
            err = None /\
            trace w' = trace w ++ [Emit maybeServiceJob;
                                   Model CallNextToProcess; TxBegin;
                                   UserCalled (job_id snap) (data snap);
                                   Model (CallSetProcessedNow (job_id snap));
                                   Model (CallWrite (Some (job_id snap))
                                            (delay_written processIn)
                                            newData);
                                   Emit jobUpdated; TxCommit;
                                   Emit processCommitted] /\
            database w'
            = (tx_commit
                 (rewrite_result snap newData processIn
                                 (poll_answered w)).1).1
        | Some e =>
            err = Some e /\
            trace w' = trace w ++ [Emit maybeServiceJob;
                                   Model CallNextToProcess; TxBegin;
                                   UserCalled (job_id snap) (data snap);
                                   Model (CallSetProcessedNow (job_id snap));
                                   Model (CallWrite (Some (job_id snap))
                                            (delay_written processIn)
                                            newData);
                                   TxRollback; Emit processCommitted] /\
            database w'
            = (tx_rollback
                 (rewrite_result snap newData processIn
                                 (poll_answered w)).1).1
        end
    end.
Proof.
  intros Hrun Hpoll _ Hstop. split; [reflexivity|].
  pose proof (iterator_services_at J pf w snap Hpoll) as Hat.
  pose proof (poll_answered_trace w) as Hx.
  assert (Hend : forall err w',
             calls_back (fun cb => processJob J false pf cb snap)
                        (poll_answered w) err w' ->
             calls_back (process_iterator J pf) w err w' /\
             whilst (S budget) (continueProcessing J) (process_iterator J pf)
                    (process_finish done) w
             = done None (emit stopProcess (releaseClient w'))).
  { intros err w' Hcb.
    assert (Hit : calls_back (process_iterator J pf) w err w')
      by (intros cb; rewrite Hat; apply Hcb).
    split; [exact Hit|].
    rewrite (calls_back_at _ _ _ _ Hit) in Hstop.
    rewrite (whilst_step budget _ _ _ w err w' Hrun Hit).
    destruct err; [reflexivity|].
    rewrite whilst_stopped; [reflexivity|]. rewrite Hstop. reflexivity. }
  destruct (pf (job_id snap) (data snap)) as [[[e|] newData] processIn]
    eqn:Hpf.
  - destruct (processJob_user_error J false pf snap (poll_answered w) e
                newData processIn Hpf) as (w' & Hcb & Hext & Hdb).
    destruct (Hend _ _ Hcb) as [Hit Hloop].
    exists (Some e), w'. split; [exact Hit|]. split; [exact Hloop|].
    split; [reflexivity|]. split; [|exact Hdb].
    rewrite (ext_trace _ _ _ Hext), Hx, <- app_assoc. reflexivity.
  - destruct (rewrite_result snap newData processIn (poll_answered w)).2.1
      as [e|] eqn:Hrw.
    + destruct (processJob_rewrite_refused J false pf snap (poll_answered w)
                  newData processIn e Hpf Hrw) as (w' & Hcb & Hext & Hdb).
      destruct (Hend _ _ Hcb) as [Hit Hloop].
      exists (Some e), w'. split; [exact Hit|]. split; [exact Hloop|].
      split; [reflexivity|]. split; [|exact Hdb].
      rewrite (ext_trace _ _ _ Hext), Hx, <- app_assoc. reflexivity.
    + destruct (processJob_commits J false pf snap (poll_answered w)
                  newData processIn Hpf Hrw)
        as (w' & Hcb & Hext & Hdb & _).
      destruct (Hend _ _ Hcb) as [Hit Hloop].
      exists None, w'. split; [exact Hit|]. split; [exact Hloop|].
      split; [reflexivity|]. split; [|exact Hdb].
      rewrite (ext_trace _ _ _ Hext), Hx, <- app_assoc. reflexivity.
Qed.

(** C10: the flag belongs to the module, not to the instance.  After
    [A.stopProcessing()], [B.continueProcessing()] is false and a polling
    loop of [B] ends at its next test; entering [A.process] makes
    [B.continueProcessing()] true again, and it stays true for as long as
    [A]'s loop is watched if nobody else touches it. *)
Theorem flag_is_shared_by_all_instances A B w :
  continueProcessing B (stopProcessing A w) = Some false /\
  (forall (budget : nat) pf (done : Callback Db),
      whilst budget (continueProcessing B) (process_iterator B pf)
             (process_finish done) (stopProcessing A w)
      = done None (emit stopProcess (releaseClient (stopProcessing A w)))) /\
  continueProcessing B (process_enter A (stopProcessing B w)) = Some true /\
  (forall (budget : nat) pf,
      agenda w = [] ->
      continueProcessing B (process budget A pf (Some report) w) = Some true).
Proof.
  split; [reflexivity|]. split; [|split; [reflexivity|]].
  - intros budget pf done. rewrite whilst_stopped by reflexivity.
    reflexivity.
  - intros budget pf Ha. unfold process, continueProcessing.
    destruct (connect_calls (db (options A)) (process_enter A w))
      as (w1 & Hk & _ & _ & _ & Hidle).
    rewrite Hk. destruct (Hidle Ha) as [Ha1 Hf1].
    destruct (pg_connect _ _).2.
    + cbn [default]. unfold report. simpl. exact Hf1.
    + cbn [default]. apply whilst_keeps_flag; [exact Ha1 | exact Hf1].
Qed.

End Claims.
(** ** The in-memory store *)

Lemma healthy_draw (n : nat) (s : MemDb) :
  healthy (S n) s -> (draw s).1 = None /\ healthy n (draw s).2.
Proof.
  unfold healthy, draw. destruct (faults s) as [|f fs]; simpl.
  - intros _. split; [reflexivity|]. destruct n; constructor.
  - intros Hh. inversion Hh; subst. auto.
Qed.

(** What the operations of a cycle do when no fault is drawn. *)
Lemma mem_begin_ok (s : MemDb) :
  (draw s).1 = None ->
  mem_begin s =
  (mkMemDb (durable s) (Some (view s)) (held s) (foreign s) (next_id s)
           (tail (faults s)), None).
Proof. unfold mem_begin, draw. cbn [fst]. intros ->. reflexivity. Qed.

Lemma mem_setProcessedNow_ok (t : Z) (id : JobId) (s : MemDb) :
  (draw s).1 = None ->
  mem_setProcessedNow t id s =
  (set_view (alter (fun j => mkJob (job_data j) (due_at j) (Some t)) id
                   (view s)) (draw s).2, None).
Proof.
  unfold mem_setProcessedNow, draw. cbn [fst snd]. intros ->. reflexivity.
Qed.

Lemma mem_write_ok (t : Z) (id : JobId) (p : JsDelay) (d : Data)
    (s : MemDb) :
  (draw s).1 = None ->
  mem_write t (Some id) p d s =
  (set_view (alter (fun j => mkJob d (due_from t p) (processed_at j)) id
                   (view s)) (draw s).2, (None, Some id)).
Proof. unfold mem_write, draw. cbn [fst snd]. intros ->. reflexivity. Qed.

Lemma mem_commit_ok (s : MemDb) :
  (draw s).1 = None ->
  mem_commit s =
  (mkMemDb (view s) None (held s) (foreign s) (next_id s) (tail (faults s)),
   None).
Proof. unfold mem_commit, draw. cbn [fst]. intros ->. reflexivity. Qed.

(** A fault-free cycle on a job that exists, at the level of the store. *)
Lemma mem_cycle (s : MemDb) (t : Z) (id : JobId) (d : Data) (p : JsDelay)
    (j : Job) :
  pending s = None ->
  durable s !! id = Some j ->
  healthy 4 s ->
  let r := mem_write t (Some id) p d
             (mem_setProcessedNow t id (mem_begin s).1).1 in
  r.2.1 = None /\
  durable (mem_commit r.1).1 !! id = Some (mkJob d (due_from t p) (Some t)) /\
  pending (mem_commit r.1).1 = None.
Proof.
  intros Hp Hd Hh.
  destruct (healthy_draw _ _ Hh) as [H1 Hh1].
  rewrite (mem_begin_ok s H1). cbn [fst].
  match goal with |- context [mem_setProcessedNow t id ?x] => set (s1 := x) end.
  destruct (healthy_draw 2 s1 Hh1) as [H2 Hh2].
  rewrite (mem_setProcessedNow_ok t id s1 H2). cbn [fst].
  match goal with |- context [mem_write t _ p d ?x] => set (s2 := x) end.
  destruct (healthy_draw 1 s2 Hh2) as [H3 Hh3].
  rewrite (mem_write_ok t id p d s2 H3). cbn [fst snd].
  match goal with |- context [mem_commit ?x] => set (s3 := x) end.
  destruct (healthy_draw 0 s3 Hh3) as [H4 _].
  rewrite (mem_commit_ok s3 H4). cbn [fst durable pending].
  split; [reflexivity|]. split; [|reflexivity].
  subst s3 s2 s1. unfold view, set_view, draw. cbn.
  rewrite Hp. cbn. rewrite !lookup_alter_eq, Hd. reflexivity.
Qed.

(** Rolling back never touches the committed rows. *)
Lemma mem_rollback_durable (s : MemDb) :
  durable (mem_rollback (mem_begin s).1).1 = durable s /\
  pending (mem_rollback (mem_begin s).1).1 = None.
Proof.
  unfold mem_rollback, mem_begin, draw.
  destruct (head (faults s)) as [[e|]|]; simpl; auto.
Qed.

(** In the in-memory store a job that does not exist, or that another
    session has locked, cannot be located. *)
Lemma mem_unlocatable (id : JobId) (s : MemDb) :
  (draw s).1 = None ->
  view s !! id = None \/ id ∈ foreign s ->
  unlocatable id s.
Proof.
  intros Hd Hno. left.
  change (obtainLock id s) with (mem_obtainLock id s).
  unfold mem_obtainLock, draw in *. cbn [fst] in Hd. rewrite Hd.
  rewrite bool_decide_false; [reflexivity|].
  unfold view in *. cbn [pending durable foreign].
  intros [Hsome Hfree]. destruct Hno as [Hnone | Hin].
  - rewrite Hnone in Hsome. destruct Hsome as [? ?]. discriminate.
  - contradiction.
Qed.

(** C1: a service cycle, whichever entry point started it.  If the user's
    function reports success (and the store does what it is asked), the job
    is stored with the new data, with [due_at] computed from the delay (no
    delay, or none given: inactive) and with [processed_at] set to the time
    of the report, and the transaction is committed.  If it reports an
    error, the transaction is rolled back and the stored rows are the rows
    of before the cycle. *)
Theorem commit_only_on_success (J : Jobs) (now : bool) (pf : ProcessFunction)
    (snap : JobSnap) (j : Job) (w : World MemDb) :
  match pf (job_id snap) (data snap) with
  | (None, newData, nextDelay) =>
      pending (database w) = None ->
      durable (database w) !! job_id snap = Some j ->
      healthy 4 (database w) ->
      exists w' t,
        calls_back (fun cb => processJob J now pf cb snap) w None w' /\
        clock w <= t <= clock w' /\
        durable (database w') !! job_id snap
        = Some (mkJob newData
                      match nextDelay with
                      | Ms n => Some (t + n)
                      | Null | Undefined => None
                      end
                      (Some t)) /\
        pending (database w') = None /\
        extends w w' [TxBegin; UserCalled (job_id snap) (data snap);
                      Model (CallSetProcessedNow (job_id snap));
                      Model (CallWrite (Some (job_id snap))
                                       (delay_written nextDelay) newData);
                      Emit jobUpdated; TxCommit; Emit (committed_event now)]
  | (Some e, _, _) =>
      exists w',
        calls_back (fun cb => processJob J now pf cb snap) w (Some e) w' /\
        durable (database w') = durable (database w) /\
        pending (database w') = None /\
        extends w w' [TxBegin; UserCalled (job_id snap) (data snap);
                      TxRollback; Emit (committed_event now)]
  end.
Proof.
  destruct (pf (job_id snap) (data snap)) as [[[e|] d] p] eqn:Hpf.
  - destruct (processJob_user_error J now pf snap w e d p Hpf)
      as (w' & Hcb & Hext & Hdb).
    exists w'. split; [exact Hcb|]. rewrite Hdb.
    destruct (mem_rollback_durable (database w)) as [Hd Hp]. auto.
  - intros Hp Hd Hh.
    pose proof (rewrite_result_eq snap d p w) as Hrw.
    destruct (mem_cycle (database w) (clock (user_returns snap w))
                (job_id snap) d (delay_written p) j Hp Hd Hh)
      as (Hr & Hdur & Hpend).
    destruct (processJob_commits J now pf snap w d p Hpf)
      as (w' & Hcb & Hext & Hdb & Hclk).
    { rewrite Hrw. exact Hr. }
    exists w', (clock (user_returns snap w)).
    split; [exact Hcb|]. split; [exact Hclk|].
    rewrite Hdb, Hrw. split; [|split; [exact Hpend | exact Hext]].
    etransitivity; [exact Hdur|]. destruct p; reflexivity.
Qed.

(** C2: the code at a failing input.  One job is due and the user's
    function reports an error for it.  Whatever the budget, the loop is
    over after that one cycle: the client is released, [stopProcess] is
    emitted and [done] is called, although the flag is still true and the
    job is still due. *)
Theorem user_error_ends_polling (budget : nat) :
  let r := process (S budget) example_jobs
                   (fail_with (UserProcessingError 7)) (Some report)
                   (fresh_world (example_db [])) in
  trace r = [PgConnect "postgres://db"; Emit maybeServiceJob;
             Model CallNextToProcess; TxBegin; UserCalled 1%nat "{}";
             TxRollback; Emit processCommitted; ReleaseClient;
             Emit stopProcess; DoneCalled None] /\
  parked r = false /\
  continueProcessing example_jobs r = Some true /\
  (nextToProcess (clock r) (database r)).2 = (None, Some example_snap).
Proof. vm_compute. repeat split. Qed.

(** C3: the code at a failing input.  The lock on the job cannot be
    obtained (the job does not exist): [done] is called with the error
    while the client obtained from the pool is still checked out. *)
Theorem lock_failure_keeps_the_client :
  let r := processNow example_jobs 9%nat succeed (Some report)
                      (fresh_world (example_db [])) in
  trace r = [PgConnect "postgres://db"; Model (CallObtainLock 9%nat);
             DoneCalled (Some JobNotFoundError)] /\
  checkedOut r = 1%nat /\
  ReleaseClient ∉ trace r.
Proof.
  intros r.
  assert (Ht : trace r = [PgConnect "postgres://db";
                          Model (CallObtainLock 9%nat);
                          DoneCalled (Some JobNotFoundError)])
    by (vm_compute; reflexivity).
  split; [exact Ht|]. split; [vm_compute; reflexivity|].
  rewrite Ht, !not_elem_of_cons. repeat split; try discriminate.
  apply not_elem_of_nil.
Qed.

(** C4: the code at a failing input.  The poll itself fails with a store
    error; the loop ends, the client is released and [stopProcess] is
    emitted, but [done] is called without the error. *)
Theorem finish_drops_the_error (budget : nat) :
  trace (process (S budget) example_jobs succeed (Some report)
                 (fresh_world (example_db [None; Some (StoreError 1)])))
  = [PgConnect "postgres://db"; Emit maybeServiceJob;
     Model CallNextToProcess; ReleaseClient; Emit stopProcess;
     DoneCalled None].
Proof. vm_compute. reflexivity. Qed.

(** C6: the code at a failing input.  The fifth operation of this run,
    [setProcessedNow], fails.  The cycle goes on, commits the rewrite
    without the stamp and [done] is called without error. *)
Theorem stamp_error_is_swallowed :
  let r := processNow example_jobs 1%nat succeed (Some report)
             (fresh_world
                (example_db [None; None; None; None; Some (StoreError 3)]))
  in
  trace r = [PgConnect "postgres://db"; Model (CallObtainLock 1%nat);
             Model (CallGetDataForJob 1%nat); TxBegin;
             UserCalled 1%nat "{}"; Model (CallSetProcessedNow 1%nat);
             Model (CallWrite (Some 1%nat) Null "{done:true}");
             Emit jobUpdated; TxCommit; Emit processNowCommitted;
             Model (CallUnlock 1%nat); ReleaseClient; DoneCalled None] /\
  durable (database r) !! 1%nat = Some (mkJob "{done:true}" None None).
Proof. vm_compute. split; reflexivity. Qed.

(** The same happens to an error of the commit itself (seventh operation
    of this run): [txDone] takes no argument, the notifications are emitted,
    [done] is called without error, and nothing was stored. *)
Lemma commit_error_is_swallowed :
  let r := processNow example_jobs 1%nat succeed (Some report)
             (fresh_world
                (example_db [None; None; None; None; None; None;
                             Some (StoreError 4)]))
  in
  trace r = [PgConnect "postgres://db"; Model (CallObtainLock 1%nat);
             Model (CallGetDataForJob 1%nat); TxBegin;
             UserCalled 1%nat "{}"; Model (CallSetProcessedNow 1%nat);
             Model (CallWrite (Some 1%nat) Null "{done:true}");
             Emit jobUpdated; TxCommit; Emit processNowCommitted;
             Model (CallUnlock 1%nat); ReleaseClient; DoneCalled None] /\
  durable (database r) !! 1%nat = Some example_job.
Proof. vm_compute. split; reflexivity. Qed.

(** C7 as stated fails: in this successful cycle [jobUpdated] is emitted
    before the commit is issued. *)
Lemma jobUpdated_precedes_commit :
  let f := fun cb => processJob example_jobs true succeed cb example_snap in
  let w := fresh_world (example_db []) in
  calls_back f w None (at_callback f w) /\
  ~ notified_after_commit true (trace (at_callback f w)).
Proof.
  split.
  - intros cb. vm_compute. reflexivity.
  - intros [Hupd _]. vm_compute in Hupd. discriminate.
Qed.

(** C8 as stated fails: with [pollInterval] one millisecond above the
    largest delay a timer honours, the timer is armed with 1 ms, and the
    loop is back after 1 ms instead of [pollInterval]. *)
Lemma oversized_interval_is_not_waited_for :
  poll_result (polling_world drained_db []) = (None, None) /\
  clock (at_callback (process_iterator patient_jobs succeed)
                     (polling_world drained_db []))
  = clock (poll_answered (polling_world drained_db [])) + 1 /\
  ~ (exists w' evs,
        calls_back (process_iterator patient_jobs succeed)
                   (polling_world drained_db []) None w' /\
        trace w' = trace (polling_world drained_db []) ++ evs /\
        evs = [Emit maybeServiceJob; Model CallNextToProcess; Emit drain;
               SetTimeout (pollInterval_or_default (options patient_jobs))]
        /\
        length (filter (fun e => e = Emit drain) evs) = 1%nat /\
        clock (poll_answered (polling_world drained_db []))
          + default 1000 (pollInterval (options patient_jobs))
          <= clock w').
Proof.
  split; [vm_compute; reflexivity|]. split; [vm_compute; reflexivity|].
  intros (w' & evs & Hcb & _ & _ & _ & Hclock).
  rewrite <- (calls_back_at _ _ _ _ Hcb) in Hclock.
  vm_compute in Hclock. apply Hclock. reflexivity.
Qed.

(** ** The theorems at concrete inputs *)

Lemma healthy_example (n : nat) : healthy n (example_db []).
Proof. unfold healthy. simpl. destruct n; constructor. Defined.

Lemma commit_only_on_success_witness :
  (exists w' t,
      calls_back
        (fun cb => processJob example_jobs false succeed cb example_snap)
        (fresh_world (example_db [])) None w' /\
      durable (database w') !! 1%nat
      = Some (mkJob "{done:true}" None (Some t))) /\
  (exists w',
      calls_back
        (fun cb => processJob example_jobs false
                              (fail_with (UserProcessingError 7)) cb
                              example_snap)
        (fresh_world (example_db [])) (Some (UserProcessingError 7)) w' /\
      durable (database w') = {[ 1%nat := example_job ]}).
Proof.
  split.
  - destruct (commit_only_on_success example_jobs false succeed example_snap
                example_job (fresh_world (example_db [])) eq_refl eq_refl
                (healthy_example 4))
      as (w' & t & Hcb & _ & Hd & _).
    exists w', t. split; [exact Hcb | exact Hd].
  - destruct (commit_only_on_success example_jobs false
                (fail_with (UserProcessingError 7)) example_snap example_job
                (fresh_world (example_db [])))
      as (w' & Hcb & Hd & _).
    exists w'. split; [exact Hcb | exact Hd].
Defined.

Lemma job_not_found_witness :
  (exists w' evs,
      processNow example_jobs 9%nat succeed (Some report)
                 (fresh_world (example_db []))
      = report (Some JobNotFoundError) w'
      /\ trace w' = [] ++ evs
      /\ Emit jobUpdated ∉ evs) /\
  (exists w',
      calls_back (process_iterator example_jobs succeed)
                 (polling_world drained_db []) None w').
Proof.
  destruct (job_not_found_is_an_error_only_for_processNow
              (Db := MemDb) example_jobs succeed) as [Hnow Hpoll].
  split.
  - apply (Hnow 9%nat report (fresh_world (example_db []))).
    + reflexivity.
    + left. vm_compute. reflexivity.
  - destruct (Hpoll 0%nat report (polling_world drained_db []))
      as (w' & Hcb & _).
    + reflexivity.
    + vm_compute. reflexivity.
    + exists w'. exact Hcb.
Defined.

Lemma commit_notification_witness :
  exists newData processIn,
    succeed 1%nat "{}" = (None, newData, processIn) /\
    extends (fresh_world (example_db []))
      (at_callback
         (fun cb => processJob example_jobs true succeed cb example_snap)
         (fresh_world (example_db [])))
      [TxBegin; UserCalled 1%nat "{}"; Model (CallSetProcessedNow 1%nat);
       Model (CallWrite (Some 1%nat) (delay_written processIn) newData);
       Emit jobUpdated; TxCommit; Emit processNowCommitted].
Proof.
  apply (commit_notification_follows_commit example_jobs true succeed
           example_snap (fresh_world (example_db []))).
  intros cb. vm_compute. reflexivity.
Defined.

Lemma idle_backoff_witness :
  exists w' evs,
    calls_back (process_iterator other_jobs succeed)
               (polling_world drained_db [[Elapse 1]]) None w' /\
    trace w' = [PgConnect "postgres://db"] ++ evs /\
    evs = [Emit maybeServiceJob; Model CallNextToProcess; Emit drain;
           SetTimeout 250] /\
    length (filter (fun e => e = Emit drain) evs) = 1%nat /\
    clock (poll_answered (polling_world drained_db [[Elapse 1]])) + 250
      <= clock w'.
Proof.
  apply (idle_backoff other_jobs succeed
           (polling_world drained_db [[Elapse 1]])).
  - intros p [= <-]. vm_compute. discriminate.
  - vm_compute. reflexivity.
Defined.

Lemma stop_is_not_preemptive_witness :
  exists w',
    calls_back (process_iterator example_jobs succeed)
               (polling_world (example_db []) stop_during_cycle) None w' /\
    whilst 3 (continueProcessing example_jobs)
           (process_iterator example_jobs succeed) (process_finish report)
           (polling_world (example_db []) stop_during_cycle)
    = report None (emit stopProcess (releaseClient w')) /\
    trace w' = [PgConnect "postgres://db"]
                 ++ [Emit maybeServiceJob; Model CallNextToProcess; TxBegin;
                     UserCalled 1%nat "{}";
                     Model (CallSetProcessedNow 1%nat);
                     Model (CallWrite (Some 1%nat) Null "{done:true}");
                     Emit jobUpdated; TxCommit; Emit processCommitted] /\
    durable (database w') !! 1%nat
    = Some (mkJob "{done:true}" None (Some 7)).
Proof.
  destruct (stop_is_not_preemptive example_jobs succeed report 2
              (polling_world (example_db []) stop_during_cycle) example_snap)
    as [_ (err & w' & Hcb & Hloop & Hcycle)].
  - reflexivity.
  - vm_compute. reflexivity.
  - vm_compute. reflexivity.
  - vm_compute. reflexivity.
  - assert (Hrw : (rewrite_result example_snap "{done:true}" Null
                     (poll_answered
                        (polling_world (example_db []) stop_during_cycle))).2.1
                  = None) by (vm_compute; reflexivity).
    change (succeed (job_id example_snap) (data example_snap))
      with (@None Error, "{done:true}"%string, Null) in Hcycle.
    cbv beta iota in Hcycle. rewrite Hrw in Hcycle.
    destruct Hcycle as (-> & Ht & Hdb).
    exists w'. split; [exact Hcb|]. split; [exact Hloop|].
    split; [exact Ht|]. rewrite Hdb. vm_compute. reflexivity.
Defined.

Lemma flag_is_shared_witness :
  continueProcessing other_jobs
    (process 3 example_jobs succeed (Some report)
             (fresh_world (example_db []))) = Some true.
Proof.
  apply (flag_is_shared_by_all_instances example_jobs other_jobs
           (fresh_world (example_db []))).
  reflexivity.
Defined.

(** * Further properties of the controller *)

Section MoreFacts.
Context {Db : Type} `{!Store Db}.
Implicit Types (w x : World Db) (J : Jobs) (pf : ProcessFunction).

Lemma follows_refl w : follows w w [].
Proof. split; [rewrite app_nil_r; reflexivity | auto]. Qed.

Lemma follows_yield w x evs : follows w x evs -> follows w (yield x) evs.
Proof.
  intros [Ht Hi]. split; [rewrite yield_trace; exact Ht|].
  intros Hw. destruct (Hi Hw) as [Ha Hf]. rewrite (yield_idle x Ha). auto.
Qed.

Lemma follows_log w x evs e :
  follows w x evs -> follows w (log e x) (evs ++ [e]).
Proof.
  intros [Ht Hi]. split; [|exact Hi].
  rewrite trace_log, Ht, app_assoc. reflexivity.
Qed.

Lemma follows_set_database w x evs d :
  follows w x evs -> follows w (set_database d x) evs.
Proof. intros [Ht Hi]. split; [exact Ht | exact Hi]. Qed.

Lemma follows_set_checkedOut w x evs n :
  follows w x evs -> follows w (set_checkedOut n x) evs.
Proof. intros [Ht Hi]. split; [exact Ht | exact Hi]. Qed.

Lemma follows_extends w x y evs evs' :
  follows w x evs -> extends x y evs' -> follows w y (evs ++ evs').
Proof.
  intros [Ht Hi] [Ht' _ _ _ Hi']. split.
  - rewrite Ht', Ht, app_assoc. reflexivity.
  - intros Hw. destruct (Hi Hw) as [Ha Hf]. destruct (Hi' Ha) as [Ha' Hf'].
    split; congruence.
Qed.

Lemma follows_trans w x y evs evs' :
  follows w x evs -> follows x y evs' -> follows w y (evs ++ evs').
Proof.
  intros [Ht Hi] [Ht' Hi']. split.
  - rewrite Ht', Ht, app_assoc. reflexivity.
  - intros Hw. destruct (Hi Hw) as [Ha Hf]. destruct (Hi' Ha) as [Ha' Hf'].
    split; congruence.
Qed.

Lemma follows_as w x evs evs' :
  follows w x evs -> evs = evs' -> follows w x evs'.
Proof. intros Hx <-. exact Hx. Qed.

End MoreFacts.

(** Peels the updates off the later world, the pool included. *)
Ltac comes_after :=
  repeat first
    [ apply follows_yield
    | apply follows_log
    | apply follows_set_database
    | apply follows_set_checkedOut
    | match goal with |- follows ?w ?w _ => apply follows_refl end ].

Ltac comes_after_is := eapply follows_as; [comes_after | reflexivity].

Section EntryPoints.
Context {Db : Type} `{!Store Db}.
Implicit Types (w x : World Db) (J : Jobs) (pf : ProcessFunction).

(** The world in which [connected] runs, and what it is called with. *)
Lemma connect_at (uri : string) w :
  (forall k : Callback Db,
      connect uri k w
      = k (pg_connect uri (database w)).2 (at_callback (connect uri) w)) /\
  follows w (at_callback (connect uri) w) [PgConnect uri] /\
  database (at_callback (connect uri) w) = (pg_connect uri (database w)).1 /\
  checkedOut (at_callback (connect uri) w)
  = match (pg_connect uri (database w)).2 with
    | Some _ => checkedOut w
    | None => S (checkedOut w)
    end.
Proof.
  unfold at_callback, connect.
  destruct (pg_connect uri (database w)) as [d [e|]]; cbn [fst snd].
  - split; [intros k; reflexivity|]. split; [comes_after_is|].
    split; [read_world; reflexivity|]. rewrite yield_checkedOut. reflexivity.
  - split; [intros k; reflexivity|]. split; [comes_after_is|].
    split; [read_world; reflexivity|]. rewrite yield_checkedOut. reflexivity.
Qed.


Lemma connect_parked (uri : string) w :
  parked (at_callback (connect uri) w) = parked w.
Proof.
  unfold at_callback, connect.
  destruct (pg_connect uri (database w)) as [d [e|]];
    destruct (yield_frame
                (log (PgConnect uri) (set_database d w)))
      as (_ & _ & _ & Hp & _);
    [exact Hp|].
  destruct (yield_frame
              (set_checkedOut
                 (S (checkedOut (log (PgConnect uri) (set_database d w))))
                 (log (PgConnect uri) (set_database d w))))
    as (_ & _ & _ & Hp' & _).
  exact Hp'.
Qed.

(** X1: [create] returns what it took from the pool before it calls [done],
    whether the connection, or the write, succeeded or not. *)
Theorem create_returns_the_client J (jobData : Data) (processIn : JsDelay)
    (done : option Error -> option JobId -> World Db -> World Db) w :
  exists err jobId w' evs,
    create J jobData processIn done w = done err jobId w' /\
    trace w' = trace w ++ PgConnect (db (options J)) :: evs /\
    checkedOut w' = checkedOut w /\
    (evs = [] \/
     evs = [Model (CallWrite None processIn jobData); ReleaseClient]).
Proof.
  destruct (connect_at (db (options J)) w) as (Hk & [Ht _] & _ & Hc).
  unfold create, connect_with_release. rewrite Hk.
  destruct (pg_connect _ _).2 as [e|]; cbn [release_function].
  - eexists _, _, _, []. split; [reflexivity|]. auto.
  - unfold jobsModel_write.
    destruct (write _ _ _ _ _) as [s [err r]].
    eexists _, _, _, _. split; [reflexivity|]. split; [|split; [|right]].
    + unfold releaseClient. read_world. rewrite Ht, <- !app_assoc.
      reflexivity.
    + unfold releaseClient. cbn [checkedOut log set_checkedOut].
      rewrite yield_checkedOut. cbn [checkedOut log set_database].
      rewrite Hc. reflexivity.
    + reflexivity.
Qed.

(** X2: once connected, [create] asks the store for one insertion (no id),
    with the data and the delay exactly as it was given them, an omitted
    delay included, and calls [done] with the error and the id the store
    answers. *)
Theorem create_reports_what_write_answers J (jobData : Data)
    (processIn : JsDelay)
    (done : option Error -> option JobId -> World Db -> World Db) w :
  (pg_connect (db (options J)) (database w)).2 = None ->
  exists w',
    create J jobData processIn done w
    = done (write (clock (when_connected J w)) None processIn jobData
                  (database (when_connected J w))).2.1
           (write (clock (when_connected J w)) None processIn jobData
                  (database (when_connected J w))).2.2
           w' /\
    trace w' = trace w ++ [PgConnect (db (options J));
                           Model (CallWrite None processIn jobData);
                           ReleaseClient] /\
    database w'
    = (write (clock (when_connected J w)) None processIn jobData
             (database (when_connected J w))).1.
Proof.
  intros Hok. unfold when_connected.
  destruct (connect_at (db (options J)) w) as (Hk & [Ht _] & _ & _).
  unfold create, connect_with_release. rewrite Hk, Hok.
  cbn [release_function]. unfold jobsModel_write.
  destruct (write _ _ _ _ _) as [s [err r]]. cbn [fst snd].
  eexists. split; [reflexivity|]. split.
  - unfold releaseClient. read_world. rewrite Ht, <- !app_assoc.
    reflexivity.
  - unfold releaseClient. read_world. reflexivity.
Qed.

(** X3: when the pool gives no connection, each entry point calls [done]
    with the pool's error and does nothing else: nothing is asked of the
    store, nothing is emitted, nothing is taken from the pool.  [process]
    has set the flag all the same. *)
Theorem connection_failure_is_reported J pf (jobData : Data)
    (processIn : JsDelay) (jobId : JobId) (budget : nat) (e : Error)
    (created : option Error -> option JobId -> World Db -> World Db)
    (done : Callback Db) w :
  (pg_connect (db (options J)) (database w)).2 = Some e ->
  (exists w',
      create J jobData processIn created w = created (Some e) None w' /\
      follows w w' [PgConnect (db (options J))] /\
      checkedOut w' = checkedOut w) /\
  (exists w',
      processNow J jobId pf (Some done) w = done (Some e) w' /\
      follows w w' [PgConnect (db (options J))] /\
      checkedOut w' = checkedOut w) /\
  (exists w',
      process budget J pf (Some done) w = done (Some e) w' /\
      trace w' = trace w ++ [PgConnect (db (options J))] /\
      checkedOut w' = checkedOut w /\
      (agenda w = [] -> shouldStillProcess w' = Some true)).
Proof.
  intros Hfail. split; [|split].
  - destruct (connect_at (db (options J)) w) as (Hk & Hf & _ & Hc).
    rewrite Hfail in Hc.
    unfold create, connect_with_release. rewrite Hk, Hfail.
    cbn [release_function]. eexists. split; [reflexivity|]. auto.
  - destruct (connect_at (db (options J)) w) as (Hk & Hf & _ & Hc).
    rewrite Hfail in Hc.
    unfold processNow. rewrite Hk, Hfail. cbn [default].
    eexists. split; [reflexivity|]. auto.
  - assert (Hdb : database (process_enter J w) = database w) by reflexivity.
    destruct (connect_at (db (options J)) (process_enter J w))
      as (Hk & [Ht Hi] & _ & Hc).
    rewrite Hdb, Hfail in Hc. rewrite Hdb in Hk.
    unfold process. rewrite Hk, Hfail. cbn [default].
    eexists. split; [reflexivity|]. split; [exact Ht|].
    split; [exact Hc|]. intros Ha. destruct (Hi Ha) as [_ Hflag].
    exact Hflag.
Qed.

(** X4: a stop request that arrives while [process] is connecting is
    honoured before the first poll: the client is returned, [stopProcess]
    is emitted and [done] is called, and the store was never asked for a
    job. *)
Theorem stop_while_connecting_prevents_polling J pf (budget : nat)
    (done : Callback Db) w :
  (pg_connect (db (options J)) (database w)).2 = None ->
  truthy_flag (continueProcessing J (when_connected J (process_enter J w)))
  = false ->
  process budget J pf (Some done) w
  = done None (emit stopProcess
                 (releaseClient (when_connected J (process_enter J w)))) /\
  trace (when_connected J (process_enter J w))
  = trace w ++ [PgConnect (db (options J))].
Proof.
  intros Hok Hstop. unfold when_connected in *.
  assert (Hdb : database (process_enter J w) = database w) by reflexivity.
  destruct (connect_at (db (options J)) (process_enter J w))
    as (Hk & [Ht _] & _ & _).
  rewrite Hdb in Hk. split; [|exact Ht].
  unfold process. rewrite Hk, Hok. cbn [default].
  rewrite whilst_stopped by exact Hstop. reflexivity.
Qed.

(** X5: [process] does not depend on the flag it finds: it sets it before
    it does anything else.  In particular a stop request made before
    [process] is entered is lost. *)
Theorem process_forgets_an_earlier_stop J J' pf (budget : nat)
    (done : option (Callback Db)) w :
  (forall flag : option bool,
      process budget J pf done (set_shouldStillProcess flag w)
      = process budget J pf done w) /\
  process budget J pf done (stopProcessing J' w)
  = process budget J pf done w.
Proof. split; [intros flag|]; reflexivity. Qed.

End EntryPoints.

(** ** The polling loop as a whole *)

Lemma phase_run_app (p q : Phase) (l1 l2 : list Event) :
  phase_run p l1 = Some q -> phase_run p (l1 ++ l2) = phase_run q l2.
Proof.
  revert p. induction l1 as [|e l1 IH]; intros p; simpl.
  - intros [= ->]. reflexivity.
  - destruct (phase_step p e) as [p'|]; [apply IH | discriminate].
Qed.

(** Proves that an event is not in a list written out. *)
Ltac not_among :=
  cbn [app];
  repeat (rewrite not_elem_of_cons; split; [discriminate|]);
  apply not_elem_of_nil.

Section Loop.
Context {Db : Type} `{!Store Db}.
Implicit Types (w x : World Db) (J : Jobs) (pf : ProcessFunction).

(** The events of a service cycle take the loop from the poll back to the
    boundary, and do not include a release. *)
Lemma cycle_protocol pf (snap : JobSnap) (err : option Error)
    (evs : list Event) :
  cycle_events pf snap err evs ->
  phase_run Idle ([Emit maybeServiceJob; Model CallNextToProcess; TxBegin;
                   UserCalled (job_id snap) (data snap)]
                    ++ evs ++ [Emit processCommitted]) = Some Idle /\
  ReleaseClient ∉ [Emit maybeServiceJob; Model CallNextToProcess; TxBegin;
                   UserCalled (job_id snap) (data snap)]
                    ++ evs ++ [Emit processCommitted].
Proof.
  unfold cycle_events.
  destruct (pf (job_id snap) (data snap)) as [[[e|] newData] processIn].
  - intros [_ ->]. split; [reflexivity | not_among].
  - intros [[_ ->] | (e & _ & ->)].
    + split; [|not_among].
      destruct processIn; cbn; rewrite Nat.eqb_refl; cbn;
        rewrite Nat.eqb_refl; reflexivity.
    + split; [|not_among].
      destruct processIn; cbn; rewrite Nat.eqb_refl; cbn;
        rewrite Nat.eqb_refl; reflexivity.
Qed.

Lemma finish_report (err : option Error) w :
  trace (process_finish report err w)
  = trace w ++ [ReleaseClient; Emit stopProcess; DoneCalled None] /\
  checkedOut (process_finish report err w) = pred (checkedOut w) /\
  parked (process_finish report err w) = parked w.
Proof.
  unfold process_finish, report, emit, releaseClient.
  split; [|split; reflexivity].
  rewrite !trace_log, trace_set_checkedOut, <- !app_assoc. reflexivity.
Qed.

(** A run of the loop, observed for [budget] iterations: either it has
    ended, through [finish], or it is still at an iteration boundary. *)
Lemma whilst_protocol J pf (budget : nat) w :
  exists evs,
    (ReleaseClient ∉ evs) /\
    ((trace (whilst budget (continueProcessing J) (process_iterator J pf)
                    (process_finish report) w)
      = trace w ++ evs ++ [ReleaseClient; Emit stopProcess; DoneCalled None]
      /\ (phase_run Idle evs = Some Idle \/ phase_run Idle evs = Some Polled)
      /\ checkedOut (whilst budget (continueProcessing J)
                            (process_iterator J pf) (process_finish report)
                            w) = pred (checkedOut w)
      /\ parked (whilst budget (continueProcessing J) (process_iterator J pf)
                        (process_finish report) w) = parked w)
     \/
     (trace (whilst budget (continueProcessing J) (process_iterator J pf)
                    (process_finish report) w) = trace w ++ evs
      /\ phase_run Idle evs = Some Idle
      /\ checkedOut (whilst budget (continueProcessing J)
                            (process_iterator J pf) (process_finish report)
                            w) = checkedOut w
      /\ parked (whilst budget (continueProcessing J) (process_iterator J pf)
                        (process_finish report) w) = true)).
Proof.
  revert w. induction budget as [|budget IH]; intros w.
  - destruct (truthy_flag (continueProcessing J w)) eqn:Hrun.
    + exists []. split; [apply not_elem_of_nil|]. right.
      simpl. rewrite Hrun. simpl. rewrite app_nil_r. auto.
    + exists []. split; [apply not_elem_of_nil|]. left.
      rewrite whilst_stopped by exact Hrun.
      destruct (finish_report None w) as (Ht & Hc & Hp). auto.
  - destruct (truthy_flag (continueProcessing J w)) eqn:Hrun.
    2:{ exists []. split; [apply not_elem_of_nil|]. left.
        rewrite whilst_stopped by exact Hrun.
        destruct (finish_report None w) as (Ht & Hc & Hp). auto. }
    destruct (poll_result w) as [[e|] r] eqn:Hpoll.
    + destruct (iterator_poll_error J pf w e r Hpoll) as (w' & Hcb & Hext).
      rewrite (whilst_step budget _ _ _ w (Some e) w' Hrun Hcb).
      destruct (finish_report (Some e) w') as (Ht & Hc & Hp).
      destruct Hext as [Ht' Hc' Hp' _ _].
      exists [Emit maybeServiceJob; Model CallNextToProcess].
      split; [not_among|]. left.
      rewrite Ht, Ht', Hc, Hc', Hp, Hp', <- !app_assoc. auto.
    + destruct r as [snap|].
      * destruct (iterator_services J pf w snap Hpoll)
          as (err & w' & evs & Hcb & Hext & Hev).
        destruct (cycle_protocol pf snap err evs Hev) as [Hrun1 Hno1].
        rewrite (whilst_step budget _ _ _ w err w' Hrun Hcb).
        destruct Hext as [Ht' Hc' Hp' _ _].
        destruct err as [e|].
        -- destruct (finish_report (Some e) w') as (Ht & Hc & Hp).
           eexists. split; [exact Hno1|]. left.
           rewrite Ht, Ht', Hc, Hc', Hp, Hp', <- !app_assoc. auto.
        -- destruct (IH w') as (evs2 & Hno2 & Hcases).
           eexists (_ ++ evs2). split.
           { rewrite not_elem_of_app. split; [exact Hno1 | exact Hno2]. }
           rewrite (phase_run_app _ _ _ evs2 Hrun1).
           destruct Hcases as [(Ht & Hph & Hc & Hp) | (Ht & Hph & Hc & Hp)].
           ++ left. rewrite Ht, Ht', Hc, Hc', Hp, Hp', <- !app_assoc. auto.
           ++ right. rewrite Ht, Ht', Hc, Hc', Hp, <- !app_assoc. auto.
      * destruct (iterator_drained J pf w Hpoll) as (w' & Hcb & Hext & _).
        rewrite (whilst_step budget _ _ _ w None w' Hrun Hcb).
        destruct Hext as [Ht' Hc' Hp' _ _].
        destruct (IH w') as (evs2 & Hno2 & Hcases).
        exists ([Emit maybeServiceJob; Model CallNextToProcess; Emit drain;
                 SetTimeout (pollInterval_or_default (options J))] ++ evs2).
        split.
        { rewrite not_elem_of_app. split; [not_among | exact Hno2]. }
        rewrite (phase_run_app Idle Idle
                   [Emit maybeServiceJob; Model CallNextToProcess;
                    Emit drain;
                    SetTimeout (pollInterval_or_default (options J))]
                   evs2 eq_refl).
        destruct Hcases as [(Ht & Hph & Hc & Hp) | (Ht & Hph & Hc & Hp)].
        -- left. rewrite Ht, Ht', Hc, Hc', Hp, Hp', <- !app_assoc. auto.
        -- right. rewrite Ht, Ht', Hc, Hc', Hp, <- !app_assoc. auto.
Qed.



(** X7: the polling loop holds exactly one client for as long as it runs
    and returns it once, when it ends: either the run has ended, the
    release is the third action from the end and the pool is as it was
    found, or the loop is still running, no release has happened and the
    client is still checked out. *)
Theorem polling_holds_one_client J pf (budget : nat) w :
  (pg_connect (db (options J)) (database w)).2 = None ->
  exists evs,
    (ReleaseClient ∉ evs) /\
    ((trace (process budget J pf (Some report) w)
      = trace w ++ PgConnect (db (options J)) :: evs
          ++ [ReleaseClient; Emit stopProcess; DoneCalled None]
      /\ checkedOut (process budget J pf (Some report) w) = checkedOut w
      /\ parked (process budget J pf (Some report) w) = parked w)
     \/
     (trace (process budget J pf (Some report) w)
      = trace w ++ PgConnect (db (options J)) :: evs
      /\ checkedOut (process budget J pf (Some report) w) = S (checkedOut w)
      /\ parked (process budget J pf (Some report) w) = true)).
Proof.
  intros Hok.
  assert (Hdb : database (process_enter J w) = database w) by reflexivity.
  destruct (connect_at (db (options J)) (process_enter J w))
    as (Hk & [Ht _] & _ & Hc).
  rewrite Hdb in Hk, Hc. rewrite Hok in Hc.
  unfold process. rewrite Hk, Hok. cbn [default]. unfold id.
  destruct (whilst_protocol J pf budget
              (at_callback (connect (db (options J))) (process_enter J w)))
    as (evs & Hno & [(Hr & _ & Hco & Hp) | (Hr & _ & Hco & Hp)]).
  - exists evs. split; [exact Hno|]. left.
    rewrite Hr, Ht, Hco, Hc, Hp, connect_parked, <- !app_assoc.
    repeat split; reflexivity.
  - exists evs. split; [exact Hno|]. right.
    rewrite Hr, Ht, Hco, Hc, Hp, <- !app_assoc.
    repeat split; reflexivity.
Qed.

(** X14: the delay of the idle timer.  After an empty poll the timer is
    set to [options.pollInterval || 1000]: to [pollInterval] itself when
    that is a number other than 0, and to 1000 when it is unset or 0; the
    delay is therefore never 0, and the loop cannot be configured to poll
    without pause. *)
Theorem idle_delay_is_never_zero J pf w :
  poll_result w = (None, None) ->
  exists w' d,
    calls_back (process_iterator J pf) w None w' /\
    last (trace w') = Some (SetTimeout d) /\
    d = match pollInterval (options J) with
        | Some p => if p =? 0 then 1000 else p
        | None => 1000
        end /\
    d <> 0.
Proof.
  intros Hpoll.
  destruct (iterator_drained J pf w Hpoll) as (w' & Hcb & Hext & _).
  exists w', (pollInterval_or_default (options J)).
  split; [exact Hcb|]. split; [|split].
  - rewrite (ext_trace _ _ _ Hext).
    change [Emit maybeServiceJob; Model CallNextToProcess; Emit drain;
            SetTimeout (pollInterval_or_default (options J))]
      with ([Emit maybeServiceJob; Model CallNextToProcess; Emit drain]
              ++ [SetTimeout (pollInterval_or_default (options J))]).
    rewrite app_assoc. apply last_snoc.
  - unfold pollInterval_or_default, truthy_number.
    destruct (pollInterval (options J)) as [p|]; [|reflexivity].
    destruct (Z.eqb_spec p 0); reflexivity.
  - unfold pollInterval_or_default, truthy_number.
    destruct (pollInterval (options J)) as [p|]; simpl; [|lia].
    destruct (Z.eqb_spec p 0); simpl; lia.
Qed.

(** The world in which a poll is answered is later than the one in which
    the iteration started. *)
Lemma poll_answered_later w :
  extends w (poll_answered w) [Emit maybeServiceJob; Model CallNextToProcess].
Proof. unfold poll_answered. later_state_is. Qed.

(** X8: empty polls add up.  If the next [n] polls find no job (and nobody
    stops the loop), the loop spends them emitting [n] times
    [maybeServiceJob], the poll, [drain] and the timer, begins no
    transaction, keeps its client, and is back at an iteration boundary no
    sooner than [n] times [pollInterval] (1000 if unset) later, provided
    [pollInterval] is not above the largest delay a timer honours. *)
Theorem idle_polls_add_up J pf (fin : Callback Db) (n b : nat) w :
  (forall p : Z, pollInterval (options J) = Some p -> p <= TIMEOUT_MAX) ->
  (forall k : nat,
      (k < n)%nat ->
      truthy_flag (continueProcessing J (after_polls J pf k w)) = true /\
      poll_result (after_polls J pf k w) = (None, None)) ->
  whilst (n + b) (continueProcessing J) (process_iterator J pf) fin w
  = whilst b (continueProcessing J) (process_iterator J pf) fin
           (after_polls J pf n w) /\
  trace (after_polls J pf n w)
  = trace w ++ concat (replicate n
                         [Emit maybeServiceJob; Model CallNextToProcess;
                          Emit drain;
                          SetTimeout (pollInterval_or_default (options J))])
  /\
  checkedOut (after_polls J pf n w) = checkedOut w /\
  clock w + Z.of_nat n * default 1000 (pollInterval (options J))
    <= clock (after_polls J pf n w).
Proof.
  intros Hrange. revert w. induction n as [|n IH]; intros w Hempty.
  - unfold after_polls. simpl. rewrite app_nil_r.
    repeat split; try reflexivity. lia.
  - destruct (Hempty 0%nat ltac:(lia)) as [Hrun Hpoll].
    unfold after_polls in Hrun, Hpoll. simpl in Hrun, Hpoll.
    destruct (iterator_drained J pf w Hpoll) as (w' & Hcb & Hext & Hclock).
    assert (Hwait : default 1000 (pollInterval (options J))
                    <= timer_delay (pollInterval_or_default (options J))).
    { unfold pollInterval_or_default, truthy_number.
      destruct (pollInterval (options J)) as [p|] eqn:Hp; simpl.
      - destruct (Z.eqb_spec p 0) as [-> | Hnz]; simpl.
        + pose proof (timer_delay_pos 1000). lia.
        + apply timer_delay_honoured. apply Hrange. reflexivity.
      - apply timer_delay_honoured. unfold TIMEOUT_MAX. lia. }
    pose proof (calls_back_at _ _ _ _ Hcb) as Hat.
    assert (Hshift : forall k, after_polls J pf k w'
                               = after_polls J pf (S k) w).
    { intros k. unfold after_polls. rewrite Nat.iter_succ_r, Hat.
      reflexivity. }
    destruct (IH w') as (Hloop & Htr & Hco & Hcl).
    { intros k Hk. rewrite Hshift. apply Hempty. lia. }
    rewrite Hshift in Hloop, Htr, Hco, Hcl.
    split; [|split; [|split]].
    + change (S n + b)%nat with (S (n + b)).
      rewrite (whilst_step (n + b) _ _ fin w None w' Hrun Hcb). exact Hloop.
    + rewrite Htr, (ext_trace _ _ _ Hext). cbn [replicate concat].
      rewrite <- !app_assoc. reflexivity.
    + rewrite Hco. apply Hext.
    + pose proof (ext_clock _ _ _ (poll_answered_later w)) as Hlater.
      lia.
Qed.

End Loop.

(** ** Service cycles and [processNow] *)

Section Service.
Context {Db : Type} `{!Store Db}.
Implicit Types (w x : World Db) (J : Jobs) (pf : ProcessFunction).

(** X9: how a service cycle whose transaction has begun ends can be read
    off its notifications.  The closing notification ([processCommitted]
    or [processNowCommitted]) is the last event of every such cycle,
    rolled back or committed; [jobUpdated] is emitted exactly in the
    cycles that report no error, which are exactly those that commit; the
    others roll back. *)
Theorem cycle_outcome J (now : bool) pf (snap : JobSnap) w :
  (tx_begin (database w)).2 = None ->
  exists err w' evs,
    calls_back (fun cb => processJob J now pf cb snap) w err w' /\
    trace w' = trace w ++ evs /\
    last evs = Some (Emit (committed_event now)) /\
    (err = None <-> Emit jobUpdated ∈ evs) /\
    (err = None <-> TxCommit ∈ evs) /\
    (err <> None <-> TxRollback ∈ evs).
Proof.
  intros _.
  destruct (processJob_cycle J now pf snap w)
    as (err & w' & evs & Hcb & Hext & Hev).
  exists err, w'. eexists. split; [exact Hcb|]. split; [apply Hext|].
  unfold cycle_events in Hev.
  destruct (pf (job_id snap) (data snap)) as [[[e|] newData] processIn].
  - destruct Hev as [-> ->]. cbn [app last]. split; [reflexivity|].
    destruct now; cbn [committed_event];
      rewrite !elem_of_cons, !elem_of_nil;
      intuition (discriminate || congruence).
  - destruct Hev as [[-> ->] | (e & -> & ->)]; cbn [app last];
      (split; [reflexivity|]);
      destruct now; cbn [committed_event];
      rewrite !elem_of_cons, !elem_of_nil;
      intuition (discriminate || congruence).
Qed.

(** X10: when the store refuses the rewrite, the cycle rolls back and
    reports the store's own error; [jobUpdated] is not emitted. *)
Theorem rewrite_error_rolls_back J (now : bool) pf (snap : JobSnap) w
    (d : Data) (p : JsDelay) (e : Error) :
  pf (job_id snap) (data snap) = (None, d, p) ->
  (rewrite_result snap d p w).2.1 = Some e ->
  exists w',
    calls_back (fun cb => processJob J now pf cb snap) w (Some e) w' /\
    extends w w' [TxBegin; UserCalled (job_id snap) (data snap);
                  Model (CallSetProcessedNow (job_id snap));
                  Model (CallWrite (Some (job_id snap)) (delay_written p) d);
                  TxRollback; Emit (committed_event now)] /\
    database w' = (tx_rollback (rewrite_result snap d p w).1).1.
Proof.
  intros Hpf Hw. unfold calls_back, processJob, serviceJob. rewrite Hpf.
  unfold updateJob, jobsModel_write.
  unfold rewrite_result in *. fold (user_returns snap w).
  fold (delay_written p).
  set (u := jobsModel_setProcessedNow (job_id snap) (user_returns snap w))
    in *.
  destruct (write (clock u) (Some (job_id snap)) (delay_written p) d
                  (database u)) as [s' [err r]] eqn:Hwr.
  cbn [fst snd] in Hw. subst err.
  eexists. split; [intros cb; reflexivity|]. split.
  - subst u. unfold emit, begin, jobsModel_setProcessedNow, user_returns.
    later_state_is.
  - unfold emit, rollback. read_world. reflexivity.
Qed.

(** X11: when the lock is granted, the job is there and the transaction
    begins, [processNow] runs one service cycle on the snapshot and then,
    whatever the cycle reported, releases the lock, returns the client and
    only then calls [done], with what the cycle reported.  It does not
    look at the flag and does not write it. *)
Theorem processNow_serves_then_cleans_up J (jobId : JobId) pf
    (done : Callback Db) w (snap : JobSnap) :
  (pg_connect (db (options J)) (database w)).2 = None ->
  (obtainLock jobId (pg_connect (db (options J)) (database w)).1).2 = None ->
  (getDataForJob jobId
     (obtainLock jobId (pg_connect (db (options J)) (database w)).1).1).2
  = (None, Some snap) ->
  (tx_begin
     (getDataForJob jobId
        (obtainLock jobId
           (pg_connect (db (options J)) (database w)).1).1).1).2 = None ->
  exists err w' evs,
    processNow J jobId pf (Some done) w = done err w' /\
    follows w w' ([PgConnect (db (options J)); Model (CallObtainLock jobId);
                   Model (CallGetDataForJob jobId); TxBegin;
                   UserCalled (job_id snap) (data snap)]
                    ++ evs
                    ++ [Emit processNowCommitted; Model (CallUnlock jobId);
                        ReleaseClient]) /\
    cycle_events pf snap err evs /\
    checkedOut w' = checkedOut w.
Proof.
  intros Hok Hlock Hdata _.
  destruct (connect_at (db (options J)) w) as (Hk & Hf & Hd & Hc).
  rewrite Hok in Hc.
  unfold processNow. rewrite Hk, Hok. cbn [default]. unfold id.
  generalize dependent (at_callback (connect (db (options J))) w).
  intros w1 _ Hf Hd Hc.
  unfold jobsModel_obtainLock. rewrite Hd.
  destruct (obtainLock jobId _) as [s e]. cbn [fst snd] in *. subst e.
  unfold jobsModel_getDataForJob. read_world.
  destruct (getDataForJob jobId s) as [s' [e r]]. cbn [snd] in Hdata.
  injection Hdata as -> ->. unfold getJobProcessor.
  match goal with
  | |- context [processJob _ _ _ _ _ ?x] =>
      destruct (processJob_cycle J true pf snap x)
        as (err & w' & evs & Hcb & Hext & Hev);
      assert (Hx : follows w1 x [Model (CallObtainLock jobId);
                                 Model (CallGetDataForJob jobId)])
        by comes_after_is;
      assert (Hcx : checkedOut x = S (checkedOut w))
        by (rewrite yield_checkedOut; cbn [checkedOut log set_database];
            rewrite yield_checkedOut; exact Hc)
  end.
  exists err, (releaseClient (jobsModel_unlock jobId w')), evs.
  split; [apply Hcb|]. split; [|split; [exact Hev|]].
  - unfold releaseClient, jobsModel_unlock.
    eapply follows_as.
    + apply follows_log, follows_set_checkedOut, follows_log,
        follows_set_database.
      eapply follows_extends; [|exact Hext].
      eapply follows_trans; [exact Hf | exact Hx].
    + cbn [committed_event]. rewrite <- !app_assoc. reflexivity.
  - unfold releaseClient, jobsModel_unlock.
    cbn [checkedOut log set_checkedOut set_database].
    rewrite (ext_checkedOut _ _ _ Hext), Hcx. reflexivity.
Qed.

(** X12: when the lock is granted but the snapshot cannot be read,
    [processNow] begins no transaction and does not call the user's
    function; it releases the lock, returns the client and calls [done]
    with the store's error. *)
Theorem processNow_data_error_cleans_up J (jobId : JobId) pf
    (done : Callback Db) w (e : Error) (r : option JobSnap) :
  (pg_connect (db (options J)) (database w)).2 = None ->
  (obtainLock jobId (pg_connect (db (options J)) (database w)).1).2 = None ->
  (getDataForJob jobId
     (obtainLock jobId (pg_connect (db (options J)) (database w)).1).1).2
  = (Some e, r) ->
  exists w',
    processNow J jobId pf (Some done) w = done (Some e) w' /\
    follows w w' [PgConnect (db (options J)); Model (CallObtainLock jobId);
                  Model (CallGetDataForJob jobId); Model (CallUnlock jobId);
                  ReleaseClient] /\
    checkedOut w' = checkedOut w.
Proof.
  intros Hok Hlock Hdata.
  destruct (connect_at (db (options J)) w) as (Hk & Hf & Hd & Hc).
  rewrite Hok in Hc.
  unfold processNow. rewrite Hk, Hok. cbn [default]. unfold id.
  generalize dependent (at_callback (connect (db (options J))) w).
  intros w1 _ Hf Hd Hc.
  unfold jobsModel_obtainLock. rewrite Hd.
  destruct (obtainLock jobId _) as [s e0]. cbn [fst snd] in *. subst e0.
  unfold jobsModel_getDataForJob. read_world.
  destruct (getDataForJob jobId s) as [s' [e0 r0]]. cbn [snd] in Hdata.
  injection Hdata as -> ->. unfold getJobProcessor.
  eexists. split; [reflexivity|]. split.
  - unfold releaseClient, jobsModel_unlock.
    eapply follows_as.
    + eapply follows_trans; [exact Hf|]. comes_after.
    + reflexivity.
  - unfold releaseClient, jobsModel_unlock.
    cbn [checkedOut log set_checkedOut set_database].
    rewrite yield_checkedOut. cbn [checkedOut log set_database].
    rewrite yield_checkedOut. cbn [checkedOut log set_database].
    rewrite Hc. reflexivity.
Qed.


(** X13: whatever the pool and the store answer and whatever the user's
    function reports, as long as the BEGIN of the cycle (if one is run)
    does not fail, [processNow] ends by calling [done], once, and it never
    writes the flag of the polling loops: with no other task scheduled,
    the flag is afterwards what it was before. *)
Theorem processNow_calls_done_and_keeps_the_flag J (jobId : JobId) pf
    (done : Callback Db) w :
  (tx_begin
     (getDataForJob jobId
        (obtainLock jobId
           (pg_connect (db (options J)) (database w)).1).1).1).2 = None ->
  exists err w' evs,
    processNow J jobId pf (Some done) w = done err w' /\
    follows w w' (PgConnect (db (options J)) :: evs) /\
    Emit stopProcess ∉ evs.
Proof.
  intros _.
  destruct (connect_at (db (options J)) w) as (Hk & Hf & Hd & _).
  unfold processNow. rewrite Hk. cbn [default]. unfold id.
  generalize dependent (at_callback (connect (db (options J))) w).
  intros w1 _ Hf Hd.
  destruct (pg_connect _ _).2 as [e|].
  { exists (Some e), w1, []. split; [reflexivity|].
    split; [exact Hf | apply not_elem_of_nil]. }
  unfold jobsModel_obtainLock.
  destruct (obtainLock jobId (database w1)) as [s [e|]].
  { eexists _, _, [Model (CallObtainLock jobId)].
    split; [reflexivity|]. split; [|not_among].
    eapply follows_as; [eapply follows_trans; [exact Hf|]; comes_after|].
    reflexivity. }
  unfold jobsModel_getDataForJob.
  destruct (getDataForJob jobId _) as [s' [[e|] [snap|]]];
    unfold getJobProcessor.
  - eexists _, _, [Model (CallObtainLock jobId);
                   Model (CallGetDataForJob jobId);
                   Model (CallUnlock jobId); ReleaseClient].
    split; [reflexivity|]. split; [|not_among].
    unfold releaseClient, jobsModel_unlock.
    eapply follows_as; [eapply follows_trans; [exact Hf|]; comes_after|].
    reflexivity.
  - eexists _, _, [Model (CallObtainLock jobId);
                   Model (CallGetDataForJob jobId);
                   Model (CallUnlock jobId); ReleaseClient].
    split; [reflexivity|]. split; [|not_among].
    unfold releaseClient, jobsModel_unlock.
    eapply follows_as; [eapply follows_trans; [exact Hf|]; comes_after|].
    reflexivity.
  - match goal with
    | |- context [processJob _ _ _ _ _ ?x] =>
        destruct (processJob_cycle J true pf snap x)
          as (err & w' & evs & Hcb & Hext & Hev);
        assert (Hx : follows w1 x [Model (CallObtainLock jobId);
                                   Model (CallGetDataForJob jobId)])
          by comes_after_is
    end.
    exists err, (releaseClient (jobsModel_unlock jobId w')).
    eexists. split; [apply Hcb|]. split.
    + unfold releaseClient, jobsModel_unlock.
      eapply follows_as.
      * apply follows_log, follows_set_checkedOut, follows_log,
          follows_set_database.
        eapply follows_extends; [|exact Hext].
        eapply follows_trans; [exact Hf | exact Hx].
      * rewrite <- !app_assoc. reflexivity.
    + unfold cycle_events in Hev.
      destruct (pf (job_id snap) (data snap)) as [[[e|] newData] processIn].
      * destruct Hev as [_ ->]. cbn [committed_event]. not_among.
      * destruct Hev as [[_ ->] | (e & _ & ->)]; cbn [committed_event];
          not_among.
  - eexists _, _, [Model (CallObtainLock jobId);
                   Model (CallGetDataForJob jobId);
                   Model (CallUnlock jobId); ReleaseClient].
    split; [reflexivity|]. split; [|not_among].
    unfold releaseClient, jobsModel_unlock.
    eapply follows_as; [eapply follows_trans; [exact Hf|]; comes_after|].
    reflexivity.
Qed.

End Service.

(** ** The further properties at concrete inputs *)



Lemma create_reports_witness :
  exists w' : World MemDb,
    trace w' = [] ++ [PgConnect "postgres://db";
                      Model (CallWrite None (Ms 10) "{a:1}");
                      ReleaseClient].
Proof.
  destruct (create_reports_what_write_answers example_jobs "{a:1}" (Ms 10)
              report_created (fresh_world (example_db [])))
    as (w' & _ & Ht & _).
  - reflexivity.
  - exists w'. exact Ht.
Defined.

Lemma connection_failure_witness :
  exists w',
    process 3 example_jobs succeed (Some report)
            (fresh_world no_connection_db)
    = report (Some ConnectionError) w' /\
    trace w' = [] ++ [PgConnect "postgres://db"].
Proof.
  destruct (connection_failure_is_reported example_jobs succeed "{}" Null
              1%nat 3 ConnectionError report_created report
              (fresh_world no_connection_db))
    as (_ & _ & w' & Hp & Ht & _).
  - reflexivity.
  - exists w'. split; [exact Hp | exact Ht].
Defined.

Lemma stop_while_connecting_witness :
  trace (when_connected example_jobs
           (process_enter example_jobs
              (mem_world (example_db []) 5 [[CallStop other_jobs]])))
  = [] ++ [PgConnect "postgres://db"].
Proof.
  apply (stop_while_connecting_prevents_polling example_jobs succeed 3 report
           (mem_world (example_db []) 5 [[CallStop other_jobs]])).
  - reflexivity.
  - vm_compute. reflexivity.
Defined.


Lemma polling_client_witness :
  exists evs : list Event,
    (ReleaseClient ∉ evs) /\
    ((trace (process 3 example_jobs succeed (Some report)
                     (fresh_world (example_db [])))
      = [] ++ PgConnect "postgres://db" :: evs
          ++ [ReleaseClient; Emit stopProcess; DoneCalled None]
      /\ checkedOut (process 3 example_jobs succeed (Some report)
                             (fresh_world (example_db []))) = 0%nat
      /\ parked (process 3 example_jobs succeed (Some report)
                         (fresh_world (example_db []))) = false)
     \/
     (trace (process 3 example_jobs succeed (Some report)
                     (fresh_world (example_db [])))
      = [] ++ PgConnect "postgres://db" :: evs
      /\ checkedOut (process 3 example_jobs succeed (Some report)
                             (fresh_world (example_db []))) = 1%nat
      /\ parked (process 3 example_jobs succeed (Some report)
                         (fresh_world (example_db []))) = true)).
Proof.
  apply (polling_holds_one_client example_jobs succeed 3
           (fresh_world (example_db []))).
  reflexivity.
Defined.

Lemma idle_polls_witness :
  clock (polling_world drained_db []) + 3 * 250
    <= clock (after_polls other_jobs succeed 3 (polling_world drained_db [])).
Proof.
  apply (idle_polls_add_up other_jobs succeed report 3 0
           (polling_world drained_db [])).
  - intros p [= <-]. vm_compute. discriminate.
  - intros k Hk.
    destruct k as [|[|[|k]]]; [| | |lia]; split; vm_compute; reflexivity.
Defined.

Lemma cycle_outcome_witness :
  exists err (w' : World MemDb) evs,
    calls_back
      (fun cb => processJob example_jobs false succeed cb example_snap)
      (fresh_world (example_db [])) err w' /\
    last evs = Some (Emit processCommitted) /\
    (err = None <-> TxCommit ∈ evs).
Proof.
  destruct (cycle_outcome example_jobs false succeed example_snap
              (fresh_world (example_db [])))
    as (err & w' & evs & Hcb & _ & Hlast & _ & Hcommit & _).
  - reflexivity.
  - exists err, w', evs. split; [exact Hcb|]. split; [exact Hlast|].
    exact Hcommit.
Defined.

Lemma rewrite_error_witness :
  exists w',
    calls_back
      (fun cb => processJob example_jobs false succeed cb example_snap)
      (fresh_world failing_write_db) (Some (StoreError 2)) w'.
Proof.
  destruct (rewrite_error_rolls_back example_jobs false succeed example_snap
              (fresh_world failing_write_db) "{done:true}" Null
              (StoreError 2))
    as (w' & Hcb & _).
  - reflexivity.
  - vm_compute. reflexivity.
  - exists w'. exact Hcb.
Defined.

Lemma processNow_serves_witness :
  exists err w',
    processNow example_jobs 1%nat succeed (Some report)
               (fresh_world (example_db []))
    = report err w' /\
    checkedOut w' = 0%nat.
Proof.
  destruct (processNow_serves_then_cleans_up example_jobs 1%nat succeed
              report (fresh_world (example_db [])) example_snap)
    as (err & w' & evs & Hrun & _ & _ & Hc).
  - reflexivity.
  - vm_compute. reflexivity.
  - vm_compute. reflexivity.
  - vm_compute. reflexivity.
  - exists err, w'. split; [exact Hrun | exact Hc].
Defined.

Lemma processNow_calls_done_witness :
  exists err w' evs,
    processNow example_jobs 1%nat succeed (Some report)
               (fresh_world (example_db []))
    = report err w' /\
    trace w' = [] ++ PgConnect "postgres://db" :: evs /\
    Emit stopProcess ∉ evs.
Proof.
  destruct (processNow_calls_done_and_keeps_the_flag example_jobs 1%nat
              succeed report (fresh_world (example_db [])))
    as (err & w' & evs & Hrun & [Ht _] & Hno).
  - vm_compute. reflexivity.
  - exists err, w', evs. split; [exact Hrun|]. split; [exact Ht | exact Hno].
Defined.

Lemma processNow_data_error_witness :
  exists w',
    processNow example_jobs 1%nat succeed (Some report)
               (fresh_world failing_data_db)
    = report (Some (StoreError 5)) w' /\
    checkedOut w' = 0%nat.
Proof.
  destruct (processNow_data_error_cleans_up example_jobs 1%nat succeed
              report (fresh_world failing_data_db) (StoreError 5) None)
    as (w' & Hrun & _ & Hc).
  - reflexivity.
  - vm_compute. reflexivity.
  - vm_compute. reflexivity.
  - exists w'. split; [exact Hrun | exact Hc].
Defined.

Lemma idle_delay_witness :
  (exists w' : World MemDb,
      calls_back (process_iterator other_jobs succeed)
                 (polling_world drained_db []) None w' /\
      last (trace w') = Some (SetTimeout 250)) /\
  (exists w' : World MemDb,
      calls_back (process_iterator
                    (mkJobs (mkOptions "postgres://db" (Some 0))) succeed)
                 (polling_world drained_db []) None w' /\
      last (trace w') = Some (SetTimeout 1000)).
Proof.
  split.
  - destruct (idle_delay_is_never_zero other_jobs succeed
                (polling_world drained_db []))
      as (w' & d & Hcb & Hlast & -> & _).
    + vm_compute. reflexivity.
    + exists w'. split; [exact Hcb | exact Hlast].
  - destruct (idle_delay_is_never_zero
                (mkJobs (mkOptions "postgres://db" (Some 0))) succeed
                (polling_world drained_db []))
      as (w' & d & Hcb & Hlast & -> & _).
    + vm_compute. reflexivity.
    + exists w'. split; [exact Hcb | exact Hlast].
Defined.
